(** * Slash-command suggestion popup: model and verification

    A shallow embedding of the slash-command subsystem of the editor:

    - [slashCommands.ts]          the static command registry,
    - [SlashCommandExtension.ts]  the candidate filter ([items]), the commit
                                  hook ([command]) and the popup life cycle
                                  ([onStart], [onUpdate], [onKeyDown], [onExit]),
    - [SlashCommandsList.tsx]     the list component: highlighted index,
                                  keyboard navigation, [selectItem].

    The document engine (Tiptap / ProseMirror), the popup library (tippy.js)
    and React are external; the parts of them the code calls are modelled by
    small explicit state records. *)

From Stdlib Require Import ZArith NArith String Ascii Lia.
From stdpp Require Import base list gmap strings.

Local Open Scope Z_scope.

(* ===================================================================== *)
(** ** JavaScript values used by the code *)
(* ===================================================================== *)

Module Js.

(** A JavaScript string is a sequence of UTF-16 code units. *)
Definition code_unit := N.
Definition JsString := list code_unit.

(** String literals of the source (all of them are ASCII). *)
Definition lit (s : string) : JsString :=
  List.map N_of_ascii (list_ascii_of_string s).

(** [s.startsWith(search)] with the default position 0. *)
Fixpoint startsWith (s search : JsString) {struct search} : bool :=
  match search, s with
  | [], _ => true
  | _ :: _, [] => false
  | c :: search', d :: s' => N.eqb d c && startsWith s' search'
  end.

(** [s.includes(search)]: [search] occurs in [s] at some index. *)
Fixpoint includes (s search : JsString) : bool :=
  startsWith s search
  || match s with
     | [] => false
     | _ :: s' => includes s' search
     end.

(** [toLowerCase] restricted to the ASCII letters: the instance used to
    run the model on ASCII queries, where it agrees with the built-in. *)
Definition lower_unit (u : code_unit) : code_unit :=
  if (N.leb 65 u && N.leb u 90)%bool then (u + 32)%N else u.
Definition asciiToLowerCase (s : JsString) : JsString :=
  List.map lower_unit s.

(** The numbers the list component stores in [selectedIndex]: integers,
    and NaN as soon as a remainder by zero has been taken. *)
Inductive JsNum : Type :=
| JNum (z : Z)
| JNaN.

Definition add (a b : JsNum) : JsNum :=
  match a, b with
  | JNum x, JNum y => JNum (x + y)
  | _, _ => JNaN
  end.

Definition sub (a b : JsNum) : JsNum :=
  match a, b with
  | JNum x, JNum y => JNum (x - y)
  | _, _ => JNaN
  end.

(** [a % b]: the remainder has the sign of the dividend; [x % 0] is NaN. *)
Definition rem (a b : JsNum) : JsNum :=
  match a, b with
  | JNum x, JNum y => if Z.eqb y 0 then JNaN else JNum (Z.rem x y)
  | _, _ => JNaN
  end.

(** [arr[i]]: [undefined] (here [None]) for a negative index, an index
    past the end, or NaN. *)
Definition index {A : Type} (arr : list A) (i : JsNum) : option A :=
  match i with
  | JNum z => if Z.ltb z 0 then None else arr !! Z.to_nat z
  | JNaN => None
  end.

(** [arr.length] as a number. *)
Definition length {A : Type} (arr : list A) : JsNum :=
  JNum (Z.of_nat (List.length arr)).

End Js.

(* ===================================================================== *)
(** ** The document engine, as far as the commands use it *)
(* ===================================================================== *)

Module Editor.
Import Js.

(** A document range, [from] inclusive, [to] exclusive. *)
Record Range : Type := mkRange { from : nat; to : nat }.

Inductive BlockType : Type :=
| Paragraph
| Heading (level : nat)
| BulletList
| OrderedList
| Callout.

Definition BlockType_eqb (a b : BlockType) : bool :=
  match a, b with
  | Paragraph, Paragraph => true
  | Heading m, Heading n => Nat.eqb m n
  | BulletList, BulletList => true
  | OrderedList, OrderedList => true
  | Callout, Callout => true
  | _, _ => false
  end.

(** The text surface: one text block, its kind, the caret offset in the
    text, and whether the surface has keyboard focus. *)
Record Surface : Type := mkSurface {
  text : JsString;
  block : BlockType;
  caret : nat;
  focused : bool
}.

(** The calls a command chains between [editor.chain()] and [.run()]. *)
Inductive ChainOp : Type :=
| focus
| setParagraph
| toggleHeading (level : nat)
| toggleBulletList
| toggleOrderedList
| deleteRange (r : Range)
| setCallout.

Definition Chain := list ChainOp.

Definition toggle (target : BlockType) (s : Surface) : Surface :=
  {| text := text s;
     block := if BlockType_eqb (block s) target then Paragraph else target;
     caret := caret s;
     focused := focused s |}.

Definition delete_range (r : Range) (s : Surface) : Surface :=
  {| text := take (from r) (text s) ++ drop (to r) (text s);
     block := block s;
     caret := if Nat.leb (caret s) (from r) then caret s
              else if Nat.leb (to r) (caret s)
                   then (caret s - (to r - from r))%nat
                   else from r;
     focused := focused s |}.

Definition apply_op (op : ChainOp) (s : Surface) : Surface :=
  match op with
  | focus =>
      {| text := text s; block := block s; caret := caret s; focused := true |}
  | setParagraph =>
      {| text := text s; block := Paragraph; caret := caret s;
         focused := focused s |}
  | toggleHeading l => toggle (Heading l) s
  | toggleBulletList => toggle BulletList s
  | toggleOrderedList => toggle OrderedList s
  | deleteRange r => delete_range r s
  | setCallout =>
      (* commands.toggleNode('callout', 'paragraph'): its setNode converts
         text blocks only, and a callout (content 'block+') is not one, so
         no block is turned into a callout; a callout goes back to a
         paragraph. *)
      if BlockType_eqb (block s) Callout
      then {| text := text s; block := Paragraph; caret := caret s;
              focused := focused s |}
      else s
  end.

(** [.run()]: the chained calls are applied in the order written. *)
Definition run (c : Chain) (s : Surface) : Surface :=
  fold_left (fun acc op => apply_op op acc) c s.

(** The surface inserting typed text at the caret. *)
Definition insertText (t : JsString) (s : Surface) : Surface :=
  {| text := take (caret s) (text s) ++ t ++ drop (caret s) (text s);
     block := block s;
     caret := (caret s + List.length t)%nat;
     focused := focused s |}.

Definition is_deleteRange (op : ChainOp) : bool :=
  match op with
  | deleteRange _ => true
  | _ => false
  end.

End Editor.

(* ===================================================================== *)
(** ** slashCommands.ts: the registry *)
(* ===================================================================== *)

Module SlashCommands.
Import Js Editor.

Inductive LucideIcon : Type :=
| Pilcrow | Heading1 | Heading2 | Heading3 | List | ListOrdered | Megaphone.

(** [command] receives [{ editor, range }]; it builds a chain and runs it
    on the editor.  The chain is kept as data so that it can be inspected;
    [exec] below runs it. *)
Record SlashCommandItem : Type := mkItem {
  title : JsString;
  description : JsString;
  icon : LucideIcon;
  command : option Range -> Chain
}.

Definition exec (item : SlashCommandItem) (editor : Surface)
    (range : option Range) : Surface :=
  run (command item range) editor.

Definition paragraphItem : SlashCommandItem :=
  {| title := lit "Paragraph";
     description := lit "Normal text style";
     icon := Pilcrow;
     command := fun _ => [focus; setParagraph] |}.

Definition heading1Item : SlashCommandItem :=
  {| title := lit "Heading 1";
     description := lit "Large section heading";
     icon := Heading1;
     command := fun _ => [focus; toggleHeading 1] |}.

Definition heading2Item : SlashCommandItem :=
  {| title := lit "Heading 2";
     description := lit "Medium section heading";
     icon := Heading2;
     command := fun _ => [focus; toggleHeading 2] |}.

Definition heading3Item : SlashCommandItem :=
  {| title := lit "Heading 3";
     description := lit "Small section heading";
     icon := Heading3;
     command := fun _ => [focus; toggleHeading 3] |}.

Definition bulletListItem : SlashCommandItem :=
  {| title := lit "Bullet List";
     description := lit "Create a simple bullet list";
     icon := List;
     command := fun _ => [focus; toggleBulletList] |}.

Definition orderedListItem : SlashCommandItem :=
  {| title := lit "Ordered List";
     description := lit "Create a list with numbering";
     icon := ListOrdered;
     command := fun _ => [focus; toggleOrderedList] |}.

Definition calloutItem : SlashCommandItem :=
  {| title := lit "Callout";
     description := lit "Create a callout block with icon and background.";
     icon := Megaphone;
     command := fun range =>
       match range with
       | Some r => [focus; deleteRange r; setCallout]
       | None => [focus; setCallout]
       end |}.

Definition slashCommands : list SlashCommandItem :=
  [ paragraphItem; heading1Item; heading2Item; heading3Item;
    bulletListItem; orderedListItem; calloutItem ].

End SlashCommands.

(* ===================================================================== *)
(** ** SlashCommandExtension.ts: the candidate filter *)
(* ===================================================================== *)

Module Filter.
Import Js SlashCommands.

Section WithLowerCase.
(** [String.prototype.toLowerCase] is a built-in of the host. *)
Variable toLowerCase : JsString -> JsString.

(** The callback given to [slashCommands.filter]. *)
Definition item_matches (query : JsString) (item : SlashCommandItem) : bool :=
  startsWith (toLowerCase (title item)) (toLowerCase query)
  || includes (toLowerCase (description item)) (toLowerCase query).

(** [registry.filter(...).slice(0, 10)]. *)
Definition items_of (registry : list SlashCommandItem) (query : JsString)
  : list SlashCommandItem :=
  take 10 (List.filter (item_matches query) registry).

(** [suggestion.items({ query })]. *)
Definition items (query : JsString) : list SlashCommandItem :=
  items_of slashCommands query.

(** The match rule in the words of the specification. *)
Definition title_starts_with_ci (q : JsString) (c : SlashCommandItem) : Prop :=
  toLowerCase q `prefix_of` toLowerCase (title c).

Definition description_contains_ci (q : JsString) (c : SlashCommandItem) : Prop :=
  exists pre post, toLowerCase (description c) = pre ++ toLowerCase q ++ post.

Definition matches_spec (q : JsString) (c : SlashCommandItem) : Prop :=
  title_starts_with_ci q c \/ description_contains_ci q c.
End WithLowerCase.

End Filter.

(* ===================================================================== *)
(** ** SlashCommandsList.tsx: the list component *)
(* ===================================================================== *)

Module SlashCommandsList.
Import Js SlashCommands.

Inductive Key : Type :=
| ArrowUp
| ArrowDown
| Enter
| Escape
| OtherKey (name : string).

(** The [items] prop and the [selectedIndex] state hook. *)
Record State : Type := mkState {
  items : list SlashCommandItem;
  selectedIndex : JsNum
}.

(** [selectItem(index)]: the item handed to the [command] prop, or [None]
    when [items[index]] is [undefined] and nothing is called. *)
Definition selectItem (its : list SlashCommandItem) (index : JsNum)
  : option SlashCommandItem :=
  match Js.index its index with
  | Some item => Some item
  | None => None
  end.

(** What one call of the exposed [onKeyDown] does: the boolean it returns,
    the state after the call, and the item passed to [command], if any. *)
Record KeyResult : Type := mkKeyResult {
  handled : bool;
  next : State;
  invoked : option SlashCommandItem
}.

Definition onKeyDown (st : State) (key : Key) : KeyResult :=
  match key with
  | ArrowUp =>
      {| handled := true;
         next := {| items := items st;
                    selectedIndex :=
                      rem (sub (add (selectedIndex st) (Js.length (items st)))
                               (JNum 1))
                          (Js.length (items st)) |};
         invoked := None |}
  | ArrowDown =>
      {| handled := true;
         next := {| items := items st;
                    selectedIndex :=
                      rem (add (selectedIndex st) (JNum 1))
                          (Js.length (items st)) |};
         invoked := None |}
  | Enter =>
      {| handled := true;
         next := st;
         invoked := selectItem (items st) (selectedIndex st) |}
  | _ => {| handled := false; next := st; invoked := None |}
  end.

(** [useEffect(() => setSelectedIndex(0), [items])]. *)
Definition effect_items (st : State) : State :=
  {| items := items st; selectedIndex := JNum 0 |}.

(** First render: [useState(0)], then the effect. *)
Definition mount (its : list SlashCommandItem) : State :=
  effect_items {| items := its; selectedIndex := JNum 0 |}.

(** A render with a new [items] array: the list is the new one and the
    index still the old one.  The effect this render schedules runs later
    ([effect_items]); until then the rendered entries and the key handler
    see this state. *)
Definition updateProps (st : State) (its : list SlashCommandItem) : State :=
  {| items := its; selectedIndex := selectedIndex st |}.

(** [index === selectedIndex]. *)
Definition is_selected (index : nat) (sel : JsNum) : bool :=
  match sel with
  | JNum z => Z.eqb (Z.of_nat index) z
  | JNaN => false
  end.

(** One rendered [<button>]: title, description, highlight. *)
Record Entry : Type := mkEntry {
  entry_title : JsString;
  entry_description : JsString;
  entry_selected : bool
}.

(** The render result: [null] for an empty list. *)
Definition render (st : State) : option (list Entry) :=
  if Nat.eqb (List.length (items st)) 0 then None
  else Some (imap (fun index item =>
                     {| entry_title := title item;
                        entry_description := description item;
                        entry_selected := is_selected index (selectedIndex st) |})
                  (items st)).

(** [onClick] of the entry rendered at [index]. *)
Definition onClick (st : State) (index : nat) : option SlashCommandItem :=
  selectItem (items st) (JNum (Z.of_nat index)).

(** The events the component sees after it is mounted: a render with a new
    [items] array, a key, a click, and React running the effect that the
    last render with new items has scheduled. *)
Inductive Event : Type :=
| NewItems (its : list SlashCommandItem)
| KeyDown (key : Key)
| Click (index : nat)
| Effect.

Definition step (st : State) (ev : Event) : State :=
  match ev with
  | NewItems its => updateProps st its
  | KeyDown key => next (onKeyDown st key)
  | Click _ => st
  | Effect => effect_items st
  end.

Definition run (st : State) (evs : list Event) : State :=
  fold_left step evs st.

(** [n] presses of ArrowDown. *)
Definition pressDown (n : nat) (st : State) : State :=
  Nat.iter n (fun s => next (onKeyDown s ArrowDown)) st.

(** The highlighted index points at an entry of the list. *)
Definition valid_index (st : State) : Prop :=
  exists i, selectedIndex st = JNum i /\ 0 <= i < Z.of_nat (List.length (items st)).

End SlashCommandsList.

(* ===================================================================== *)
(** ** SlashCommandExtension.ts: commit hook and popup life cycle *)
(* ===================================================================== *)

Module SlashCommandExtension.
Import Js Editor SlashCommands.
Import SlashCommandsList(Key, ArrowUp, ArrowDown, Enter, Escape, OtherKey).

(** The caret rectangle getter handed over by the suggestion utility. *)
Record ClientRect : Type := mkRect { rect_left : Z; rect_top : Z }.

(** [SuggestionProps]: what the suggestion utility passes to the renderer.
    Its [command] field is the utility's closure that calls the
    extension's [command] option with the editor and the current range. *)
Record SuggestionProps : Type := mkProps {
  query : JsString;
  range : Range;
  items : list SlashCommandItem;
  clientRect : option ClientRect
}.

(** The tippy instance [popup[0]]. *)
Inductive PopupStatus : Type := Shown | Hidden | Destroyed.

Record Tippy : Type := mkTippy {
  getReferenceClientRect : ClientRect;
  status : PopupStatus
}.

Definition tippy_setProps (rect : ClientRect) (p : Tippy) : Tippy :=
  match status p with
  | Destroyed => p
  | _ => {| getReferenceClientRect := rect; status := status p |}
  end.

Definition tippy_hide (p : Tippy) : Tippy :=
  match status p with
  | Destroyed => p
  | _ => {| getReferenceClientRect := getReferenceClientRect p; status := Hidden |}
  end.

Definition tippy_destroy (p : Tippy) : Tippy :=
  {| getReferenceClientRect := getReferenceClientRect p; status := Destroyed |}.

(** The [ReactRenderer] holding the list component. *)
Record Component : Type := mkComponent {
  props : SuggestionProps;
  ref : SlashCommandsList.State;
  destroyed : bool
}.

(** The closure variables of [render()], both [undefined] at first, the
    text surface, and the trace of the commands that have been invoked. *)
Record World : Type := mkWorld {
  editor : Surface;
  component : option Component;
  popup : option Tippy;
  trace : list SlashCommandItem
}.

Definition initial (s : Surface) : World :=
  {| editor := s; component := None; popup := None; trace := [] |}.

Inductive Exn : Type := TypeError.

(** A handler returns a value or throws; either way the world it leaves
    behind is kept. *)
Inductive Outcome (A : Type) : Type :=
| Returned (a : A) (w : World)
| Thrown (e : Exn) (w : World).
Arguments Returned {A} a w.
Arguments Thrown {A} e w.

Definition world_of {A : Type} (o : Outcome A) : World :=
  match o with
  | Returned _ w => w
  | Thrown _ w => w
  end.

Definition andThen {A B : Type} (o : Outcome A) (k : World -> Outcome B)
  : Outcome B :=
  match o with
  | Returned _ w => k w
  | Thrown e w => Thrown e w
  end.

(** [suggestion.command]: [props.command({ editor, range })]. *)
Definition command (ed : Surface) (r : Range) (item : SlashCommandItem) : Surface :=
  exec item ed (Some r).

Definition onStart (p : SuggestionProps) (w : World) : Outcome unit :=
  let c := {| props := p; ref := SlashCommandsList.mount (items p);
              destroyed := false |} in
  match clientRect p with
  | None =>
      Returned tt {| editor := editor w; component := Some c;
                     popup := popup w; trace := trace w |}
  | Some rect =>
      Returned tt {| editor := editor w; component := Some c;
                     popup := Some {| getReferenceClientRect := rect;
                                      status := Shown |};
                     trace := trace w |}
  end.

Definition onUpdate (p : SuggestionProps) (w : World) : Outcome unit :=
  match component w with
  | None => Thrown TypeError w
  | Some c =>
      let c' := {| props := p;
                   ref := SlashCommandsList.updateProps (ref c) (items p);
                   destroyed := destroyed c |} in
      let w' := {| editor := editor w; component := Some c';
                   popup := popup w; trace := trace w |} in
      match clientRect p with
      | None => Returned tt w'
      | Some rect =>
          match popup w' with
          | None => Thrown TypeError w'
          | Some t =>
              Returned tt {| editor := editor w'; component := component w';
                             popup := Some (tippy_setProps rect t);
                             trace := trace w' |}
          end
      end
  end.

Definition onKeyDown (key : Key) (w : World) : Outcome bool :=
  match key with
  | Escape =>
      match popup w with
      | None => Thrown TypeError w
      | Some t =>
          Returned true {| editor := editor w; component := component w;
                           popup := Some (tippy_hide t); trace := trace w |}
      end
  | _ =>
      match component w with
      | None => Thrown TypeError w
      | Some c =>
          if destroyed c then Returned false w   (* component.ref is null *)
          else
            let r := SlashCommandsList.onKeyDown (ref c) key in
            let c' := {| props := props c;
                         ref := SlashCommandsList.next r;
                         destroyed := destroyed c |} in
            match SlashCommandsList.invoked r with
            | None =>
                Returned (SlashCommandsList.handled r)
                  {| editor := editor w; component := Some c';
                     popup := popup w; trace := trace w |}
            | Some item =>
                Returned (SlashCommandsList.handled r)
                  {| editor := command (editor w) (range (props c)) item;
                     component := Some c';
                     popup := popup w;
                     trace := trace w ++ [item] |}
            end
      end
  end.

(** A pointer click on the entry rendered at [index]. *)
Definition onClick (index : nat) (w : World) : World :=
  match component w with
  | None => w
  | Some c =>
      match SlashCommandsList.onClick (ref c) index with
      | None => w
      | Some item =>
          {| editor := command (editor w) (range (props c)) item;
             component := component w;
             popup := popup w;
             trace := trace w ++ [item] |}
      end
  end.

Definition onExit (w : World) : World :=
  {| editor := editor w;
     component := match component w with
                  | Some c => Some {| props := props c; ref := ref c;
                                      destroyed := true |}
                  | None => None
                  end;
     popup := match popup w with
              | Some t => Some (tippy_destroy t)
              | None => None
              end;
     trace := trace w |}.

(** React runs the effect of the mounted list component. *)
Definition runEffects (w : World) : World :=
  {| editor := editor w;
     component := match component w with
                  | Some c =>
                      if destroyed c then Some c
                      else Some {| props := props c;
                                   ref := SlashCommandsList.effect_items (ref c);
                                   destroyed := destroyed c |}
                  | None => None
                  end;
     popup := popup w;
     trace := trace w |}.

(** The renderer hooks, as events. *)
Inductive Hook : Type :=
| Start (p : SuggestionProps)
| Update (p : SuggestionProps)
| KeyDown (key : Key)
| Exit.

Definition fire (h : Hook) (w : World) : Outcome unit :=
  match h with
  | Start p => onStart p w
  | Update p => onUpdate p w
  | KeyDown key =>
      match onKeyDown key w with
      | Returned _ w' => Returned tt w'
      | Thrown e w' => Thrown e w'
      end
  | Exit => Returned tt (onExit w)
  end.

(** A sequence of hooks; the first exception ends it. *)
Fixpoint fire_all (hs : list Hook) (w : World) : Outcome unit :=
  match hs with
  | [] => Returned tt w
  | h :: hs' =>
      match fire h w with
      | Returned _ w' => fire_all hs' w'
      | Thrown e w' => Thrown e w'
      end
  end.

(** The session still has its popup and its component. *)
Definition session_open (w : World) : Prop :=
  (exists c, component w = Some c /\ destroyed c = false)
  /\ (exists t, popup w = Some t /\ status t <> Destroyed).

Section Session.
Variable toLowerCase : JsString -> JsString.

(** The trigger character. *)
Definition char : JsString := lit "/".

(** The user types the trigger character: the surface inserts it, and
    the suggestion utility starts a session with the empty query. *)
Definition typeTrigger (rect : option ClientRect) (w : World) : Outcome unit :=
  let ed := insertText char (editor w) in
  onStart {| query := [];
             range := {| from := caret (editor w); to := caret ed |};
             items := Filter.items toLowerCase [];
             clientRect := rect |}
          {| editor := ed; component := component w;
             popup := popup w; trace := trace w |}.

(** The user types more of the query: the surface inserts the text and,
    when a session is open, the suggestion utility updates it with the
    longer query, the longer range and the candidates for that query. *)
Definition typeQuery (t : JsString) (rect : option ClientRect) (w : World)
  : Outcome unit :=
  let ed := insertText t (editor w) in
  let w' := {| editor := ed; component := component w;
               popup := popup w; trace := trace w |} in
  match component w with
  | None => Returned tt w'
  | Some c =>
      onUpdate {| query := query (props c) ++ t;
                  range := {| from := from (range (props c)); to := caret ed |};
                  items := Filter.items toLowerCase (query (props c) ++ t);
                  clientRect := rect |}
               w'
  end.
End Session.

End SlashCommandExtension.

(* ===================================================================== *)
(** ** Concrete sessions used to run the model *)
(* ===================================================================== *)

Module Scenario.
Import Js Editor SlashCommands SlashCommandExtension.
Import SlashCommandsList(ArrowDown, Enter).

(** An empty, focused paragraph with the caret at its start. *)
Definition emptyParagraph : Surface :=
  {| text := []; block := Paragraph; caret := 0; focused := true |}.

Definition caretRect : ClientRect := {| rect_left := 12; rect_top := 40 |}.

(** The user has typed "/". *)
Definition afterSlash : Outcome unit :=
  typeTrigger asciiToLowerCase (Some caretRect) (initial emptyParagraph).

(** The user has typed "/h". *)
Definition afterSlashH : Outcome unit :=
  andThen afterSlash (typeQuery asciiToLowerCase (lit "h") (Some caretRect)).

(** The user has typed "/xyz". *)
Definition afterSlashXyz : Outcome unit :=
  andThen afterSlash (typeQuery asciiToLowerCase (lit "xyz") (Some caretRect)).

(** "/h", ArrowDown, ArrowDown, Enter. *)
Definition commitThird : Outcome unit :=
  andThen afterSlashH
    (fire_all [KeyDown ArrowDown; KeyDown ArrowDown; KeyDown Enter]).

(** The list of the seven commands after ArrowUp (last entry highlighted),
    then rendered with the candidates of "h", the effect still to run. *)
Definition staleAfterArrowUp : SlashCommandsList.State :=
  SlashCommandsList.run (SlashCommandsList.mount slashCommands)
    [ SlashCommandsList.KeyDown SlashCommandsList.ArrowUp;
      SlashCommandsList.NewItems (Filter.items asciiToLowerCase (lit "h")) ].

(** "/", ArrowDown, ArrowDown, then "h" is typed. *)
Definition afterSlashDownDownH : Outcome unit :=
  andThen
    (andThen afterSlash (fire_all [KeyDown ArrowDown; KeyDown ArrowDown]))
    (typeQuery asciiToLowerCase (lit "h") (Some caretRect)).

(** Enter right after that, before the effect has run. *)
Definition enterBeforeEffect : Outcome unit :=
  andThen afterSlashDownDownH (fire_all [KeyDown Enter]).

(** Enter once the effect has run. *)
Definition enterAfterEffect : Outcome unit :=
  andThen afterSlashDownDownH
    (fun w => fire_all [KeyDown Enter] (runEffects w)).

(** Props of a session whose caret rectangle is not available, and of the
    same session once it is. *)
Definition propsWithoutRect : SuggestionProps :=
  {| query := []; range := {| from := 0; to := 1 |};
     items := Filter.items asciiToLowerCase []; clientRect := None |}.

Definition propsWithRect : SuggestionProps :=
  {| query := lit "h"; range := {| from := 0; to := 2 |};
     items := Filter.items asciiToLowerCase (lit "h");
     clientRect := Some caretRect |}.

(** Props of an update whose query matches nothing. *)
Definition propsNoMatch (q : string) : SuggestionProps :=
  {| query := lit q;
     range := {| from := 0; to := S (String.length q) |};
     items := Filter.items asciiToLowerCase (lit q);
     clientRect := Some caretRect |}.

End Scenario.

(* ===================================================================== *)
(** ** Key names, clicks, and whole input sequences *)
(* ===================================================================== *)

Module Routing.
Import Js SlashCommands SlashCommandExtension.
Import SlashCommandsList(Key, ArrowUp, ArrowDown, Enter, Escape, OtherKey).

(** [event.key] as the handlers compare it: the four names they test for,
    and any other name. *)
Definition keyOf (name : string) : Key :=
  if String.eqb name "Escape" then Escape
  else if String.eqb name "ArrowUp" then ArrowUp
  else if String.eqb name "ArrowDown" then ArrowDown
  else if String.eqb name "Enter" then Enter
  else OtherKey name.

(** What reaches the controller: a hook called by the suggestion utility,
    a pointer click on the entry rendered at an index, or React running
    the effect of the list component. *)
Inductive Input : Type :=
| Hooked (h : Hook)
| Clicked (index : nat)
| Effects.

Definition feed (i : Input) (w : World) : Outcome unit :=
  match i with
  | Hooked h => fire h w
  | Clicked index => Returned tt (onClick index w)
  | Effects => Returned tt (runEffects w)
  end.

(** A sequence of inputs; the first exception ends it. *)
Fixpoint feed_all (ins : list Input) (w : World) : Outcome unit :=
  match ins with
  | [] => Returned tt w
  | i :: ins' =>
      match feed i w with
      | Returned _ w' => feed_all ins' w'
      | Thrown e w' => Thrown e w'
      end
  end.

(** The inputs that go through [selectItem]: Enter and clicks. *)
Definition commits (i : Input) : bool :=
  match i with
  | Hooked (KeyDown Enter) => true
  | Clicked _ => true
  | _ => false
  end.

(** The candidate lists an input hands over are taken from [R]. *)
Definition candidates_from (R : list SlashCommandItem) (i : Input) : Prop :=
  match i with
  | Hooked (Start p) => forall c, c ∈ items p -> c ∈ R
  | Hooked (Update p) => forall c, c ∈ items p -> c ∈ R
  | _ => True
  end.

(** The component shows candidates of [R] only, and only commands of [R]
    have been invoked. *)
Definition within (R : list SlashCommandItem) (w : World) : Prop :=
  (forall c item, component w = Some c ->
                  item ∈ SlashCommandsList.items (ref c) -> item ∈ R)
  /\ forall item, item ∈ trace w -> item ∈ R.

End Routing.

(* ===================================================================== *)
(** ** CalloutExtension.ts: the attributes of the callout node *)
(* ===================================================================== *)

Module CalloutExtension.
Import Js.

(** [CalloutNodeAttributes], also the type of [this.options]: both fields
    are optional. *)
Record CalloutNodeAttributes : Type := mkAttributes {
  icon : option JsString;
  backgroundColor : option JsString
}.

(** A string or [undefined]/[null] used as a condition: the empty string
    and the missing value are falsy. *)
Definition truthy (v : option JsString) : bool :=
  match v with
  | Some (_ :: _) => true
  | _ => false
  end.

(** [a || b]. *)
Definition or_else (a b : option JsString) : option JsString :=
  if truthy a then a else b.

(** [element.getAttribute(name)] on the attribute map of an element. *)
Definition getAttribute (element : gmap string JsString) (name : string)
  : option JsString :=
  element !! name.

(** [addAttributes().icon]. *)
Definition icon_parseHTML (options : CalloutNodeAttributes)
    (element : gmap string JsString) : option JsString :=
  or_else (getAttribute element "data-icon") (icon options).

Definition icon_renderHTML (attributes : CalloutNodeAttributes)
  : gmap string JsString :=
  match icon attributes with
  | Some (c :: v) => {[ "data-icon"%string := c :: v ]}
  | _ => ∅
  end.

(** [addAttributes().backgroundColor]. *)
Definition backgroundColor_parseHTML (options : CalloutNodeAttributes)
    (element : gmap string JsString) : option JsString :=
  or_else (getAttribute element "data-background-color") (backgroundColor options).

Definition backgroundColor_renderHTML (attributes : CalloutNodeAttributes)
  : gmap string JsString :=
  match backgroundColor attributes with
  | Some (c :: v) => {[ "data-background-color"%string := c :: v ]}
  | _ => ∅
  end.

(** The node's [renderHTML]: the icon and the background it computes for
    the [div], before they are merged into [HTMLAttributes]. *)
Definition currentIcon (options attrs : CalloutNodeAttributes) : option JsString :=
  or_else (icon attrs) (icon options).

Definition currentBgColor (options attrs : CalloutNodeAttributes)
  : option JsString :=
  or_else (backgroundColor attrs) (backgroundColor options).

End CalloutExtension.

(* ===================================================================== *)
(** ** String search: the executable functions meet their meaning *)
(* ===================================================================== *)

Section StringSearch.
Import Js.

Lemma startsWith_prefix (s search : JsString) :
  startsWith s search = true <-> search `prefix_of` s.
Proof.
  revert s; induction search as [|c search IH]; intros s; simpl.
  - split; [intros _; apply prefix_nil | reflexivity].
  - destruct s as [|d s].
    + split; [discriminate | intros [k Hk]; discriminate].
    + rewrite andb_true_iff, N.eqb_eq, IH. split.
      * intros [-> Hp]. by apply prefix_cons.
      * intros [k Hk]. simpl in Hk. simplify_eq.
        split; [reflexivity | by exists k].
Qed.

Lemma includes_infix (s search : JsString) :
  includes s search = true <-> exists pre post, s = pre ++ search ++ post.
Proof.
  induction s as [|d s IH]; simpl.
  - rewrite orb_false_r, startsWith_prefix. split.
    + intros [k Hk]. by exists [], k.
    + intros (pre & post & H). symmetry in H.
      apply app_eq_nil in H as [-> H]. apply app_eq_nil in H as [-> _].
      apply prefix_nil.
  - rewrite orb_true_iff, startsWith_prefix, IH. split.
    + intros [[k Hk] | (pre & post & H)].
      * by exists [], k.
      * exists (d :: pre), post. by rewrite H.
    + intros (pre & post & H). destruct pre as [|e pre]; simpl in H.
      * left. by exists post.
      * right. simplify_eq. by exists pre, post.
Qed.

Lemma startsWith_empty (s : JsString) : startsWith s [] = true.
Proof. by destruct s. Qed.

End StringSearch.

(* ===================================================================== *)
(** ** The candidate filter *)
(* ===================================================================== *)

Section CandidateFilter.
Import Js SlashCommands Filter.

Variable toLowerCase : JsString -> JsString.

Lemma item_matches_spec (q : JsString) (c : SlashCommandItem) :
  item_matches toLowerCase q c = true <-> matches_spec toLowerCase q c.
Proof.
  unfold item_matches, matches_spec, title_starts_with_ci,
    description_contains_ci.
  by rewrite orb_true_iff, startsWith_prefix, includes_infix.
Qed.

Lemma filter_sublist_of {A : Type} (f : A -> bool) (l : list A) :
  List.filter f l `sublist_of` l.
Proof.
  induction l as [|x l IH]; simpl; [constructor |].
  destruct (f x); by constructor.
Qed.

Lemma filter_all {A : Type} (f : A -> bool) (l : list A) :
  (forall x, f x = true) -> List.filter f l = l.
Proof.
  intros Hf. induction l as [|x l IH]; simpl; [done |].
  by rewrite Hf, IH.
Qed.

Lemma items_of_capped (R : list SlashCommandItem) (q : JsString) :
  (List.length (items_of toLowerCase R q) <= 10)%nat.
Proof. unfold items_of. rewrite length_take. lia. Qed.

Lemma items_of_characterised (R : list SlashCommandItem) (q : JsString) :
  exists l : list SlashCommandItem,
    items_of toLowerCase R q = take 10 l
    /\ l `sublist_of` R
    /\ forall c, c ∈ l <-> c ∈ R /\ matches_spec toLowerCase q c.
Proof.
  exists (List.filter (item_matches toLowerCase q) R).
  split; [reflexivity |]. split; [apply filter_sublist_of |].
  intros c. rewrite !list_elem_of_In, filter_In.
  by rewrite item_matches_spec.
Qed.

Lemma items_of_empty_query (R : list SlashCommandItem) :
  toLowerCase [] = [] -> items_of toLowerCase R [] = take 10 R.
Proof.
  intros Hnil. unfold items_of. f_equal. apply filter_all.
  intros c. unfold item_matches. by rewrite Hnil, startsWith_empty.
Qed.

(** C1.  For every query [q], the candidate filter returns the first ten
    entries of the list [l] that holds exactly the registry commands whose
    lower-cased title starts with the lower-cased [q] or whose lower-cased
    description contains it, in registry order; the result never has more
    than ten entries; and for the empty query it is the first ten registry
    commands, unchanged in order.  (The lower-casing built-in maps the
    empty string to itself.) *)
Theorem items_exactly_the_matching_commands
    (Hempty : toLowerCase [] = []) (q : JsString) :
  (exists l : list SlashCommandItem,
      items toLowerCase q = take 10 l
      /\ l `sublist_of` slashCommands
      /\ forall c, c ∈ l <-> c ∈ slashCommands /\ matches_spec toLowerCase q c)
  /\ (List.length (items toLowerCase q) <= 10)%nat
  /\ items toLowerCase [] = take 10 slashCommands.
Proof.
  split; [apply items_of_characterised |].
  split; [apply items_of_capped |].
  by apply items_of_empty_query.
Qed.

End CandidateFilter.

(** The filter on the query "h", with ASCII lower-casing. *)
Lemma items_exactly_the_matching_commands_witness :
  Js.asciiToLowerCase [] = []
  /\ ((exists l : list SlashCommands.SlashCommandItem,
          Filter.items Js.asciiToLowerCase (Js.lit "h") = take 10 l
          /\ l `sublist_of` SlashCommands.slashCommands
          /\ forall c, c ∈ l <->
               c ∈ SlashCommands.slashCommands
               /\ Filter.matches_spec Js.asciiToLowerCase (Js.lit "h") c)
      /\ (List.length (Filter.items Js.asciiToLowerCase (Js.lit "h")) <= 10)%nat
      /\ Filter.items Js.asciiToLowerCase []
         = take 10 SlashCommands.slashCommands).
Proof.
  split; [reflexivity |].
  apply (items_exactly_the_matching_commands Js.asciiToLowerCase); reflexivity.
Defined.

(** The scenario of the specification, on the registry as it is: the query
    "h" also matches the two descriptions that contain the word "with". *)
Example items_h :
  Filter.items Js.asciiToLowerCase (Js.lit "h")
  = [ SlashCommands.heading1Item; SlashCommands.heading2Item;
      SlashCommands.heading3Item; SlashCommands.orderedListItem;
      SlashCommands.calloutItem ].
Proof. reflexivity. Qed.

Example items_xyz : Filter.items Js.asciiToLowerCase (Js.lit "xyz") = [].
Proof. reflexivity. Qed.

(* ===================================================================== *)
(** ** The list component: highlighted index and keyboard navigation *)
(* ===================================================================== *)

Section ListComponent.
Import Js SlashCommands SlashCommandsList.

Lemma index_Some {A : Type} (arr : list A) (i : JsNum) (x : A) :
  Js.index arr i = Some x
  <-> exists n : nat, i = JNum (Z.of_nat n) /\ arr !! n = Some x.
Proof.
  destruct i as [z|]; simpl.
  - destruct (Z.ltb_spec z 0) as [Hneg | Hpos]; split.
    + discriminate.
    + intros (n & Hn & _). simplify_eq. lia.
    + intros H. exists (Z.to_nat z). split; [f_equal; lia | done].
    + intros (n & Hn & H). simplify_eq. by rewrite Nat2Z.id.
  - split; [discriminate | intros (n & Hn & _); discriminate].
Qed.

Lemma selectItem_index (its : list SlashCommandItem) (i : JsNum) :
  selectItem its i = Js.index its i.
Proof. unfold selectItem. by destruct (Js.index its i). Qed.

Lemma selectItem_nil (i : JsNum) : selectItem [] i = None.
Proof.
  rewrite selectItem_index. destruct i as [z|]; simpl; [|done].
  by destruct (z <? 0).
Qed.

Lemma arrowDown_index (st : State) (i : Z) :
  selectedIndex st = JNum i ->
  0 <= i < Z.of_nat (List.length (items st)) ->
  selectedIndex (next (onKeyDown st ArrowDown))
  = JNum ((i + 1) mod Z.of_nat (List.length (items st))).
Proof.
  intros Hsel Hi. simpl. rewrite Hsel. simpl.
  destruct (Z.eqb_spec (Z.of_nat (List.length (items st))) 0) as [H0 | _];
    [lia |].
  f_equal. apply Z.rem_mod_nonneg; lia.
Qed.

Lemma arrowUp_index (st : State) (i : Z) :
  selectedIndex st = JNum i ->
  0 <= i < Z.of_nat (List.length (items st)) ->
  selectedIndex (next (onKeyDown st ArrowUp))
  = JNum ((i - 1 + Z.of_nat (List.length (items st)))
          mod Z.of_nat (List.length (items st))).
Proof.
  intros Hsel Hi. simpl. rewrite Hsel. simpl.
  destruct (Z.eqb_spec (Z.of_nat (List.length (items st))) 0) as [H0 | _];
    [lia |].
  f_equal. rewrite Z.rem_mod_nonneg by lia. f_equal. lia.
Qed.

Lemma onKeyDown_items (st : State) (key : Key) :
  items (next (onKeyDown st key)) = items st.
Proof. by destruct key. Qed.

Lemma onKeyDown_valid (st : State) (key : Key) :
  valid_index st -> valid_index (next (onKeyDown st key)).
Proof.
  intros (i & Hsel & Hi). unfold valid_index. rewrite onKeyDown_items.
  destruct key; try (by exists i).
  - eexists. split; [by apply arrowUp_index |]. apply Z.mod_pos_bound. lia.
  - eexists. split; [by apply arrowDown_index |]. apply Z.mod_pos_bound. lia.
Qed.

(** C3: the path that fails.  The reset of the index is left to an effect
    that runs after the render with the new candidates.  Until it has run,
    the component shows the new list with the old index: after ArrowUp on
    the seven commands (index 6) the five candidates of "h" are rendered
    with index 6, which is out of range, no entry is highlighted and Enter
    commits nothing; after two ArrowDown (index 2) and "h", Enter commits
    the third candidate, Heading 3, not the first.  Once the effect has
    run the index is 0 and Enter commits Heading 1. *)
Theorem stale_index_after_new_items :
  items Scenario.staleAfterArrowUp = Filter.items asciiToLowerCase (lit "h")
  /\ List.length (items Scenario.staleAfterArrowUp) = 5%nat
  /\ selectedIndex Scenario.staleAfterArrowUp = JNum 6
  /\ ~ valid_index Scenario.staleAfterArrowUp
  /\ (exists entries,
         render Scenario.staleAfterArrowUp = Some entries
         /\ Forall (fun e => entry_selected e = false) entries)
  /\ invoked (onKeyDown Scenario.staleAfterArrowUp Enter) = None
  /\ selectedIndex (step Scenario.staleAfterArrowUp Effect) = JNum 0
  /\ SlashCommandExtension.trace
       (SlashCommandExtension.world_of Scenario.enterBeforeEffect)
     = [heading3Item]
  /\ SlashCommandExtension.trace
       (SlashCommandExtension.world_of Scenario.enterAfterEffect)
     = [heading1Item].
Proof.
  split; [reflexivity |]. split; [reflexivity |]. split; [reflexivity |].
  split.
  { intros (i & Hsel & Hi).
    change (selectedIndex Scenario.staleAfterArrowUp) with (JNum 6) in Hsel.
    change (List.length (items Scenario.staleAfterArrowUp)) with 5%nat in Hi.
    injection Hsel as <-. lia. }
  split.
  { eexists. split; [reflexivity |]. repeat constructor. }
  repeat split; reflexivity.
Qed.

Lemma pressDown_S (n : nat) (st : State) :
  pressDown (S n) st = next (onKeyDown (pressDown n st) ArrowDown).
Proof. reflexivity. Qed.

Lemma pressDown_index (n : nat) (st : State) (i : Z) :
  selectedIndex st = JNum i ->
  0 <= i < Z.of_nat (List.length (items st)) ->
  pressDown n st
  = {| items := items st;
       selectedIndex :=
         JNum ((i + Z.of_nat n) mod Z.of_nat (List.length (items st))) |}.
Proof.
  intros Hsel Hi. induction n as [|n IH].
  - destruct st as [its sel]; simpl in *. subst sel.
    rewrite Z.add_0_r, Z.mod_small by lia. reflexivity.
  - rewrite pressDown_S, IH. simpl.
    destruct (Z.eqb_spec (Z.of_nat (List.length (items st))) 0) as [H0 | _];
      [lia |].
    do 2 f_equal.
    rewrite Z.rem_mod_nonneg;
      [| pose proof (Z.mod_pos_bound (i + Z.of_nat n)
                       (Z.of_nat (List.length (items st)))); lia | lia].
    rewrite Zplus_mod_idemp_l. f_equal. lia.
Qed.

Lemma pressDown_length (st : State) :
  valid_index st -> pressDown (List.length (items st)) st = st.
Proof.
  intros (i & Hsel & Hi).
  rewrite (pressDown_index _ st i Hsel Hi).
  rewrite <- (Z.mul_1_l (Z.of_nat (List.length (items st)))) at 1.
  rewrite Z.mod_add, Z.mod_small by lia.
  destruct st as [its sel]; simpl in *. by subst sel.
Qed.

(** C6.  With a non-empty list and a highlighted index in range, pressing
    ArrowDown [length items] times brings the component back to the state
    it started from: same list, same highlighted index. *)
Theorem arrowDown_length_times_is_identity (st : State) :
  items st <> [] ->
  valid_index st ->
  pressDown (List.length (items st)) st = st.
Proof. intros _ Hvalid. by apply pressDown_length. Qed.

(** [selectItem(i)] hands an item to [command] exactly when [i] is a
    natural number [n] and the list has an [n]-th entry. *)
Lemma selectItem_Some (its : list SlashCommandItem) (i : JsNum)
    (item : SlashCommandItem) :
  selectItem its i = Some item
  <-> exists n : nat, i = JNum (Z.of_nat n) /\ its !! n = Some item.
Proof. rewrite selectItem_index. apply index_Some. Qed.

Lemma selectItem_out_of_bounds (its : list SlashCommandItem) (i : JsNum) :
  (forall n : nat, i = JNum (Z.of_nat n) -> (List.length its <= n)%nat) ->
  selectItem its i = None.
Proof.
  intros Hout. destruct (selectItem its i) as [item|] eqn:Hsel; [| done].
  apply selectItem_Some in Hsel as (n & Hn & Hlook).
  apply lookup_lt_Some in Hlook. specialize (Hout n Hn). lia.
Qed.

End ListComponent.

(* ===================================================================== *)
(** ** The popup controller *)
(* ===================================================================== *)

Section Controller.
Import Js Editor SlashCommands SlashCommandExtension.
Import SlashCommandsList(Key, ArrowUp, ArrowDown, Enter, Escape, OtherKey).

Ltac open_component w c Hc Hlive :=
  unfold onKeyDown; rewrite Hc, Hlive; cbn [SlashCommandsList.onKeyDown
    SlashCommandsList.invoked SlashCommandsList.handled SlashCommandsList.next].

(** Enter, with the component mounted: the outcome is decided by
    [selectItem] at the highlighted index. *)
Lemma onKeyDown_Enter (w : World) (c : Component) :
  component w = Some c ->
  destroyed c = false ->
  onKeyDown Enter w
  = match SlashCommandsList.selectItem (SlashCommandsList.items (ref c))
            (SlashCommandsList.selectedIndex (ref c)) with
    | None => Returned true w
    | Some item =>
        Returned true {| editor := command (editor w) (range (props c)) item;
                         component := Some c;
                         popup := popup w;
                         trace := trace w ++ [item] |}
    end.
Proof.
  intros Hc Hlive.
  destruct w as [ed comp pop tr], c as [p st d]; simpl in *; subst.
  cbn. by destruct (SlashCommandsList.selectItem _ _).
Qed.

Lemma onClick_lookup (w : World) (c : Component) (n : nat) :
  component w = Some c ->
  onClick n w
  = match SlashCommandsList.items (ref c) !! n with
    | None => w
    | Some item =>
        {| editor := command (editor w) (range (props c)) item;
           component := component w;
           popup := popup w;
           trace := trace w ++ [item] |}
    end.
Proof.
  intros Hc. unfold onClick, SlashCommandsList.onClick. rewrite Hc.
  rewrite selectItem_index. simpl.
  destruct (Z.ltb_spec (Z.of_nat n) 0) as [Hneg | _]; [lia |].
  by rewrite Nat2Z.id.
Qed.

Lemma enter_with_no_candidates_noop_aux (w : World) (c : Component) :
  component w = Some c ->
  destroyed c = false ->
  SlashCommandsList.items (ref c) = [] ->
  onKeyDown Enter w = Returned true w.
Proof.
  intros Hc Hlive Hnil.
  rewrite (onKeyDown_Enter w c Hc Hlive). by rewrite Hnil, selectItem_nil.
Qed.

(** C7.  With an empty candidate list, Enter is a no-op: the list
    component calls no command and reports the key as handled, and the
    controller returns [true] (so the key is consumed and never reaches
    the text surface) without throwing and leaves everything (text
    surface, component, popup, trace of commands) as it was. *)
Theorem enter_with_no_candidates_is_noop (w : World) (c : Component) :
  component w = Some c ->
  destroyed c = false ->
  SlashCommandsList.items (ref c) = [] ->
  SlashCommandsList.onKeyDown (ref c) Enter
  = {| SlashCommandsList.handled := true;
       SlashCommandsList.next := ref c;
       SlashCommandsList.invoked := None |}
  /\ onKeyDown Enter w = Returned true w.
Proof.
  intros Hc Hlive Hnil. split.
  - simpl. by rewrite Hnil, selectItem_nil.
  - by apply (enter_with_no_candidates_noop_aux w c).
Qed.

(** C10.  [selectItem(i)] hands an item to [command] exactly when [i] is
    a natural number [n] and the list has an [n]-th entry, and then it is
    that entry; for an index out of bounds (negative, past the end, NaN)
    it calls nothing.  Enter commits at the highlighted index through
    [selectItem]: if no entry is there, the controller returns [true]
    without throwing and changes nothing; otherwise exactly that entry is
    invoked.  A click on the [n]-th entry behaves the same way. *)
Theorem commit_only_an_existing_item (w : World) (c : Component) :
  component w = Some c ->
  destroyed c = false ->
  let its := SlashCommandsList.items (ref c) in
  let i := SlashCommandsList.selectedIndex (ref c) in
  (forall (j : JsNum) (item : SlashCommandItem),
      SlashCommandsList.selectItem its j = Some item
      <-> exists n : nat, j = JNum (Z.of_nat n) /\ its !! n = Some item)
  /\ (forall j : JsNum,
         (forall n : nat, j = JNum (Z.of_nat n) -> (List.length its <= n)%nat) ->
         SlashCommandsList.selectItem its j = None)
  /\ match SlashCommandsList.selectItem its i with
     | None => onKeyDown Enter w = Returned true w
     | Some item =>
         exists w', onKeyDown Enter w = Returned true w'
                    /\ trace w' = trace w ++ [item]
     end
  /\ forall n : nat,
       match its !! n with
       | None => onClick n w = w
       | Some item => trace (onClick n w) = trace w ++ [item]
       end.
Proof.
  intros Hc Hlive its i.
  split; [intros j item; apply selectItem_Some |].
  split; [intros j; apply selectItem_out_of_bounds |].
  split.
  - rewrite (onKeyDown_Enter w c Hc Hlive). fold its i.
    destruct (SlashCommandsList.selectItem its i) as [item|]; [| done].
    eexists. split; [reflexivity | done].
  - intros n. rewrite (onClick_lookup w c n Hc). fold its.
    by destruct (its !! n).
Qed.

(** C5, as the code has it.  With the component mounted, ArrowDown and
    ArrowUp are always consumed: the controller returns [true] without
    throwing, whatever the length of the list, and neither the text
    surface, the popup, the props nor the trace of commands changes.
    When the highlighted index [i] is in range (so the list is
    non-empty), ArrowDown sets it to [(i + 1) mod length] and ArrowUp to
    [(i - 1 + length) mod length]. *)
Theorem arrow_keys_consumed_and_wrap (w : World) (c : Component) :
  component w = Some c ->
  destroyed c = false ->
  let len := Z.of_nat (List.length (SlashCommandsList.items (ref c))) in
  (exists st,
      onKeyDown ArrowDown w
      = Returned true {| editor := editor w;
                         component := Some {| props := props c; ref := st;
                                              destroyed := false |};
                         popup := popup w; trace := trace w |}
      /\ SlashCommandsList.items st = SlashCommandsList.items (ref c)
      /\ forall i, SlashCommandsList.selectedIndex (ref c) = JNum i ->
                   0 <= i < len ->
                   SlashCommandsList.selectedIndex st = JNum ((i + 1) mod len))
  /\ (exists st,
      onKeyDown ArrowUp w
      = Returned true {| editor := editor w;
                         component := Some {| props := props c; ref := st;
                                              destroyed := false |};
                         popup := popup w; trace := trace w |}
      /\ SlashCommandsList.items st = SlashCommandsList.items (ref c)
      /\ forall i, SlashCommandsList.selectedIndex (ref c) = JNum i ->
                   0 <= i < len ->
                   SlashCommandsList.selectedIndex st
                   = JNum ((i - 1 + len) mod len)).
Proof.
  intros Hc Hlive len. split.
  - exists (SlashCommandsList.next (SlashCommandsList.onKeyDown (ref c) ArrowDown)).
    split; [| split].
    + by open_component w c Hc Hlive.
    + reflexivity.
    + intros i Hsel Hi. by apply arrowDown_index.
  - exists (SlashCommandsList.next (SlashCommandsList.onKeyDown (ref c) ArrowUp)).
    split; [| split].
    + by open_component w c Hc Hlive.
    + reflexivity.
    + intros i Hsel Hi. by apply arrowUp_index.
Qed.

End Controller.

(* ===================================================================== *)
(** ** The session life cycle *)
(* ===================================================================== *)

Section LifeCycle.
Import Js Editor SlashCommands SlashCommandExtension.
Import SlashCommandsList(Key, ArrowUp, ArrowDown, Enter, Escape, OtherKey).

Lemma tippy_setProps_status (rect : ClientRect) (t : Tippy) :
  status (tippy_setProps rect t) = status t.
Proof. unfold tippy_setProps. by destruct (status t) eqn:E. Qed.

Lemma tippy_hide_status (t : Tippy) : status (tippy_hide t) <> Shown.
Proof. unfold tippy_hide. by destruct (status t) eqn:E; rewrite ?E. Qed.

(** An update of an open session: nothing is thrown, the session stays
    open, the component holds the new props and candidates (the index is
    still the old one), and neither the text surface nor the trace
    changes. *)
Lemma onUpdate_open (p : SuggestionProps) (w : World) :
  session_open w ->
  exists w' c',
    onUpdate p w = Returned tt w'
    /\ session_open w'
    /\ editor w' = editor w
    /\ trace w' = trace w
    /\ component w' = Some c'
    /\ destroyed c' = false
    /\ SlashCommandsList.items (ref c') = items p.
Proof.
  intros ((c & Hc & Hlive) & (t & Ht & Hst)).
  unfold onUpdate. rewrite Hc. cbn [popup]. rewrite Ht, Hlive.
  unfold session_open.
  destruct (clientRect p) as [rect|]; do 2 eexists;
    (split; [reflexivity |]); cbn.
  - split; [| by repeat split].
    split; eexists; (split; [reflexivity |]); [done |].
    by rewrite tippy_setProps_status.
  - split; [| by repeat split].
    split; eexists; (split; [reflexivity |]); done.
Qed.

(** C4.  In an open session, an update whose candidate list is empty, and
    any number of further such updates, never close the session: no hook
    throws, the component and the popup are still there and not destroyed,
    the component renders nothing, Enter is consumed and changes nothing,
    and the text surface and the trace of commands are untouched. *)
Theorem empty_candidates_keep_session_open
    (w : World) (p : SuggestionProps) (ps : list SuggestionProps) :
  session_open w ->
  items p = [] ->
  Forall (fun p' => items p' = []) ps ->
  exists w',
    fire_all (List.map Update (p :: ps)) w = Returned tt w'
    /\ session_open w'
    /\ (exists c', component w' = Some c'
                   /\ SlashCommandsList.items (ref c') = []
                   /\ SlashCommandsList.render (ref c') = None)
    /\ onKeyDown Enter w' = Returned true w'
    /\ editor w' = editor w
    /\ trace w' = trace w.
Proof.
  intros Hopen Hnil Hall. revert w p Hopen Hnil.
  induction Hall as [|q qs Hq _ IH]; intros w p Hopen Hnil.
  - destruct (onUpdate_open p w Hopen)
      as (w' & c' & Hup & Hopen' & Hed & Htr & Hc' & Hlive' & Hits').
    rewrite Hnil in Hits'.
    exists w'. cbn. rewrite Hup.
    split; [reflexivity |]. split; [done |]. split.
    + exists c'. split; [exact Hc' |]. split; [exact Hits' |].
      unfold SlashCommandsList.render. by rewrite Hits'.
    + split; [| done].
      by apply (enter_with_no_candidates_noop_aux w' c').
  - destruct (onUpdate_open p w Hopen)
      as (w1 & c1 & Hup & Hopen1 & Hed & Htr & _).
    destruct (IH w1 q Hopen1 Hq) as (w' & Hrun & Hopen' & Hc' & Hent & Hed' & Htr').
    exists w'. split.
    + change (List.map Update (p :: q :: qs))
        with (Update p :: List.map Update (q :: qs)).
      cbn [fire_all fire]. by rewrite Hup.
    + split; [done |]. split; [done |]. split; [done |].
      split; congruence.
Qed.

(** C8, as the code has it.  With a popup at hand, Escape is consumed,
    hides the popup and does nothing else: the text surface (content,
    caret, block, focus), the component and the trace of commands are what
    they were just before the key.  In particular, right after the trigger
    character was typed into [s0], the surface still is [s0] with the
    trigger character inserted at the caret. *)
Theorem escape_hides_popup_only
    (toLowerCase : JsString -> JsString) (w : World) (t : Tippy) :
  popup w = Some t ->
  (exists w',
      onKeyDown Escape w = Returned true w'
      /\ editor w' = editor w
      /\ component w' = component w
      /\ trace w' = trace w
      /\ exists t', popup w' = Some t' /\ status t' <> Shown)
  /\ forall (s0 : Surface) (rect : ClientRect),
       exists w1 w2,
         typeTrigger toLowerCase (Some rect) (initial s0) = Returned tt w1
         /\ onKeyDown Escape w1 = Returned true w2
         /\ editor w2 = insertText char s0
         /\ trace w2 = [].
Proof.
  intros Ht. split.
  - unfold onKeyDown. rewrite Ht. eexists. split; [reflexivity |].
    cbn. repeat split. eexists. split; [reflexivity | apply tippy_hide_status].
  - intros s0 rect. do 2 eexists. by repeat split.
Qed.

(** C9: the path that fails.  A session started without a caret rectangle
    creates the component but no popup; the next update that does carry a
    rectangle, and likewise Escape, then reads [popup[0]] of an undefined
    [popup] and throws a TypeError instead of creating or repositioning the
    popup.  ([onExit] is the one hook that checks [popup] first.) *)
Theorem update_after_start_without_rect_throws
    (w : World) (p1 p2 : SuggestionProps) (rect : ClientRect) :
  popup w = None ->
  clientRect p1 = None ->
  clientRect p2 = Some rect ->
  (exists w1, onStart p1 w = Returned tt w1
              /\ popup w1 = None
              /\ exists c, component w1 = Some c /\ destroyed c = false)
  /\ (exists w', fire_all [Start p1; Update p2] w = Thrown TypeError w')
  /\ (exists w', fire_all [Start p1; KeyDown Escape] w = Thrown TypeError w')
  /\ exists w', fire_all [Start p1; Exit] w = Returned tt w'.
Proof.
  intros Hpop H1 H2. cbn [fire_all fire]. unfold onStart. rewrite H1.
  repeat split.
  - eexists. split; [reflexivity |]. cbn. split; [done |]. by eexists.
  - unfold onUpdate. cbn. rewrite H2, Hpop. by eexists.
  - unfold onKeyDown. cbn. rewrite Hpop. by eexists.
  - by eexists.
Qed.

End LifeCycle.

(* ===================================================================== *)
(** ** The theorems at work on concrete sessions *)
(* ===================================================================== *)

Section Sessions.
Import Js Editor SlashCommands SlashCommandExtension Scenario.
Import SlashCommandsList(Key, ArrowUp, ArrowDown, Enter, Escape, OtherKey).

Example afterSlash_world :
  afterSlash
  = Returned tt
      {| editor := {| text := lit "/"; block := Paragraph; caret := 1;
                      focused := true |};
         component :=
           Some {| props := {| query := [];
                               range := {| from := 0; to := 1 |};
                               items := slashCommands;
                               clientRect := Some caretRect |};
                   ref := SlashCommandsList.mount slashCommands;
                   destroyed := false |};
         popup := Some {| getReferenceClientRect := caretRect;
                          status := Shown |};
         trace := [] |}.
Proof. reflexivity. Qed.

(** C2: the path that fails.  After "/h" the candidates are Heading 1,
    Heading 2, Heading 3, Ordered List and Callout; ArrowDown, ArrowDown,
    Enter commits Heading 3 with the range of "/h".  Its command is
    [focus; toggleHeading 3]: the range is ignored, so the block becomes a
    level-3 heading whose text still is "/h".  The same holds for every
    registry entry but Callout, the one command that deletes the range
    before its own edit. *)
Theorem heading3_commit_keeps_trigger_text :
  trace (world_of commitThird) = [heading3Item]
  /\ (exists c, component (world_of afterSlashH) = Some c
                /\ range (props c) = {| from := 0; to := 2 |})
  /\ SlashCommands.command heading3Item (Some {| from := 0; to := 2 |})
     = [focus; toggleHeading 3]
  /\ editor (world_of commitThird)
     = {| text := lit "/h"; block := Heading 3; caret := 2; focused := true |}
  /\ Forall (fun item =>
               forall r, existsb is_deleteRange (SlashCommands.command item r)
                         = false)
       [ paragraphItem; heading1Item; heading2Item; heading3Item;
         bulletListItem; orderedListItem ]
  /\ forall r, SlashCommands.command calloutItem (Some r)
               = [focus; deleteRange r; setCallout].
Proof.
  split; [reflexivity |]. split; [eexists; split; reflexivity |].
  split; [reflexivity |]. split; [reflexivity |].
  split; [| reflexivity]. repeat constructor.
Qed.

(** What the Callout command does with the same range: the trigger text is
    deleted; the block stays a paragraph. *)
Example callout_deletes_range :
  exec calloutItem
       {| text := lit "/c"; block := Paragraph; caret := 2; focused := false |}
       (Some {| from := 0; to := 2 |})
  = {| text := []; block := Paragraph; caret := 0; focused := true |}.
Proof. reflexivity. Qed.

End Sessions.

(** Five candidates, five presses of ArrowDown. *)
Lemma arrowDown_length_times_is_identity_witness :
  SlashCommandsList.items
    (SlashCommandsList.mount (Filter.items Js.asciiToLowerCase (Js.lit "h")))
  <> []
  /\ SlashCommandsList.valid_index
       (SlashCommandsList.mount (Filter.items Js.asciiToLowerCase (Js.lit "h")))
  /\ SlashCommandsList.pressDown 5
       (SlashCommandsList.mount (Filter.items Js.asciiToLowerCase (Js.lit "h")))
     = SlashCommandsList.mount (Filter.items Js.asciiToLowerCase (Js.lit "h")).
Proof.
  assert (Hne : SlashCommandsList.items
                  (SlashCommandsList.mount
                     (Filter.items Js.asciiToLowerCase (Js.lit "h"))) <> [])
    by discriminate.
  assert (Hval : SlashCommandsList.valid_index
                   (SlashCommandsList.mount
                      (Filter.items Js.asciiToLowerCase (Js.lit "h")))).
  { exists 0. split; [reflexivity | simpl; lia]. }
  split; [exact Hne |]. split; [exact Hval |].
  exact (arrowDown_length_times_is_identity _ Hne Hval).
Defined.

(** Enter in the session of "/xyz", whose candidate list is empty. *)
Lemma enter_with_no_candidates_is_noop_witness :
  exists c,
    SlashCommandExtension.component
      (SlashCommandExtension.world_of Scenario.afterSlashXyz) = Some c
    /\ SlashCommandExtension.destroyed c = false
    /\ SlashCommandsList.items (SlashCommandExtension.ref c) = []
    /\ SlashCommandsList.onKeyDown (SlashCommandExtension.ref c)
         SlashCommandsList.Enter
       = {| SlashCommandsList.handled := true;
            SlashCommandsList.next := SlashCommandExtension.ref c;
            SlashCommandsList.invoked := None |}
    /\ SlashCommandExtension.onKeyDown SlashCommandsList.Enter
         (SlashCommandExtension.world_of Scenario.afterSlashXyz)
       = SlashCommandExtension.Returned true
           (SlashCommandExtension.world_of Scenario.afterSlashXyz).
Proof.
  eexists. split; [reflexivity |]. split; [reflexivity |].
  split; [reflexivity |].
  apply (enter_with_no_candidates_is_noop
           (SlashCommandExtension.world_of Scenario.afterSlashXyz));
    reflexivity.
Defined.

(** Enter and clicks in the session of "/h". *)
Lemma commit_only_an_existing_item_witness :
  exists c,
    SlashCommandExtension.component
      (SlashCommandExtension.world_of Scenario.afterSlashH) = Some c
    /\ SlashCommandExtension.destroyed c = false
    /\ SlashCommandsList.selectItem
         (SlashCommandsList.items (SlashCommandExtension.ref c)) Js.JNaN = None
    /\ SlashCommandsList.selectItem
         (SlashCommandsList.items (SlashCommandExtension.ref c)) (Js.JNum 5) = None
    /\ SlashCommandExtension.onClick 7
         (SlashCommandExtension.world_of Scenario.afterSlashH)
       = SlashCommandExtension.world_of Scenario.afterSlashH.
Proof.
  eexists. split; [reflexivity |]. split; [reflexivity |].
  destruct (commit_only_an_existing_item
              (SlashCommandExtension.world_of Scenario.afterSlashH) _
              eq_refl eq_refl) as (_ & Hout & _ & Hclick).
  split; [apply Hout; intros n Hn; discriminate |].
  split; [apply Hout; intros n Hn; injection Hn as Hn; simpl; lia |].
  exact (Hclick 7%nat).
Defined.

(** The arrow keys in the session of "/h", highlight at 0 of 5. *)
Lemma arrow_keys_consumed_and_wrap_witness :
  exists c,
    SlashCommandExtension.component
      (SlashCommandExtension.world_of Scenario.afterSlashH) = Some c
    /\ SlashCommandExtension.destroyed c = false
    /\ SlashCommandsList.selectedIndex (SlashCommandExtension.ref c) = Js.JNum 0
    /\ (exists st,
           SlashCommandExtension.onKeyDown SlashCommandsList.ArrowDown
             (SlashCommandExtension.world_of Scenario.afterSlashH)
           = SlashCommandExtension.Returned true
               {| SlashCommandExtension.editor :=
                    SlashCommandExtension.editor
                      (SlashCommandExtension.world_of Scenario.afterSlashH);
                  SlashCommandExtension.component :=
                    Some {| SlashCommandExtension.props :=
                              SlashCommandExtension.props c;
                            SlashCommandExtension.ref := st;
                            SlashCommandExtension.destroyed := false |};
                  SlashCommandExtension.popup :=
                    SlashCommandExtension.popup
                      (SlashCommandExtension.world_of Scenario.afterSlashH);
                  SlashCommandExtension.trace :=
                    SlashCommandExtension.trace
                      (SlashCommandExtension.world_of Scenario.afterSlashH) |}
           /\ SlashCommandsList.selectedIndex st = Js.JNum 1)
    /\ (exists st,
           SlashCommandExtension.onKeyDown SlashCommandsList.ArrowUp
             (SlashCommandExtension.world_of Scenario.afterSlashH)
           = SlashCommandExtension.Returned true
               {| SlashCommandExtension.editor :=
                    SlashCommandExtension.editor
                      (SlashCommandExtension.world_of Scenario.afterSlashH);
                  SlashCommandExtension.component :=
                    Some {| SlashCommandExtension.props :=
                              SlashCommandExtension.props c;
                            SlashCommandExtension.ref := st;
                            SlashCommandExtension.destroyed := false |};
                  SlashCommandExtension.popup :=
                    SlashCommandExtension.popup
                      (SlashCommandExtension.world_of Scenario.afterSlashH);
                  SlashCommandExtension.trace :=
                    SlashCommandExtension.trace
                      (SlashCommandExtension.world_of Scenario.afterSlashH) |}
           /\ SlashCommandsList.selectedIndex st = Js.JNum 4).
Proof.
  eexists. split; [reflexivity |]. split; [reflexivity |].
  split; [reflexivity |].
  destruct (arrow_keys_consumed_and_wrap
              (SlashCommandExtension.world_of Scenario.afterSlashH) _
              eq_refl eq_refl)
    as ((st1 & Hdown & _ & Hidx1) & (st2 & Hup & _ & Hidx2)).
  split.
  - exists st1. split; [exact Hdown |].
    apply (Hidx1 0); [reflexivity | simpl; lia].
  - exists st2. split; [exact Hup |].
    apply (Hidx2 0); [reflexivity | simpl; lia].
Defined.

(** C5, as stated, fails.  On an empty list ArrowDown is handled all the
    same: the handler returns [true] and takes the remainder by the length
    0, which leaves NaN in [selectedIndex]. *)
Lemma arrow_key_handled_on_empty_list :
  SlashCommandsList.handled
    (SlashCommandsList.onKeyDown (SlashCommandsList.mount [])
       SlashCommandsList.ArrowDown) = true
  /\ SlashCommandsList.selectedIndex
       (SlashCommandsList.next
          (SlashCommandsList.onKeyDown (SlashCommandsList.mount [])
             SlashCommandsList.ArrowDown)) = Js.JNaN
  /\ ~ (forall (st : SlashCommandsList.State) (key : SlashCommandsList.Key),
          key = SlashCommandsList.ArrowDown \/ key = SlashCommandsList.ArrowUp ->
          SlashCommandsList.handled (SlashCommandsList.onKeyDown st key) = true ->
          SlashCommandsList.items st <> []).
Proof.
  split; [reflexivity |]. split; [reflexivity |].
  intros Hclaim.
  apply (Hclaim (SlashCommandsList.mount []) SlashCommandsList.ArrowDown);
    [by left | reflexivity | reflexivity].
Qed.

(** Updates with the non-matching queries "xyz" and "xyzw" in the session
    opened by "/". *)
Lemma empty_candidates_keep_session_open_witness :
  SlashCommandExtension.session_open
    (SlashCommandExtension.world_of Scenario.afterSlash)
  /\ SlashCommandExtension.items (Scenario.propsNoMatch "xyz") = []
  /\ Forall (fun p' => SlashCommandExtension.items p' = [])
       [Scenario.propsNoMatch "xyzw"]
  /\ exists w',
       SlashCommandExtension.fire_all
         (List.map SlashCommandExtension.Update
            [Scenario.propsNoMatch "xyz"; Scenario.propsNoMatch "xyzw"])
         (SlashCommandExtension.world_of Scenario.afterSlash)
       = SlashCommandExtension.Returned tt w'
       /\ SlashCommandExtension.session_open w'
       /\ SlashCommandExtension.onKeyDown SlashCommandsList.Enter w'
          = SlashCommandExtension.Returned true w'.
Proof.
  assert (Hopen : SlashCommandExtension.session_open
                    (SlashCommandExtension.world_of Scenario.afterSlash)).
  { split; eexists; (split; [reflexivity | done]). }
  assert (Hall : Forall (fun p' => SlashCommandExtension.items p' = [])
                   [Scenario.propsNoMatch "xyzw"]).
  { by repeat constructor. }
  split; [exact Hopen |]. split; [reflexivity |]. split; [exact Hall |].
  destruct (empty_candidates_keep_session_open _ (Scenario.propsNoMatch "xyz")
              _ Hopen eq_refl Hall)
    as (w' & Hrun & Hopen' & _ & Henter & _).
  exists w'. split; [exact Hrun |]. split; [exact Hopen' | exact Henter].
Defined.

(** Escape right after the trigger character was typed. *)
Lemma escape_hides_popup_only_witness :
  exists t,
    SlashCommandExtension.popup
      (SlashCommandExtension.world_of Scenario.afterSlash) = Some t
    /\ exists w',
         SlashCommandExtension.onKeyDown SlashCommandsList.Escape
           (SlashCommandExtension.world_of Scenario.afterSlash)
         = SlashCommandExtension.Returned true w'
         /\ SlashCommandExtension.editor w'
            = SlashCommandExtension.editor
                (SlashCommandExtension.world_of Scenario.afterSlash)
         /\ SlashCommandExtension.trace w'
            = SlashCommandExtension.trace
                (SlashCommandExtension.world_of Scenario.afterSlash).
Proof.
  eexists. split; [reflexivity |].
  destruct (escape_hides_popup_only Js.asciiToLowerCase
              (SlashCommandExtension.world_of Scenario.afterSlash) _ eq_refl)
    as ((w' & Hesc & Hed & _ & Htr & _) & _).
  exists w'. split; [exact Hesc |]. split; [exact Hed | exact Htr].
Defined.

(** C8, as stated, fails.  Typing the trigger character into the empty
    paragraph and pressing Escape leaves the text "/" with the caret behind
    it, not the empty text with the caret at 0. *)
Lemma escape_keeps_trigger_character :
  ~ (forall (s0 : Editor.Surface) (rect : SlashCommandExtension.ClientRect)
            (w1 w2 : SlashCommandExtension.World) (b : bool),
        SlashCommandExtension.typeTrigger Js.asciiToLowerCase (Some rect)
          (SlashCommandExtension.initial s0)
        = SlashCommandExtension.Returned tt w1 ->
        SlashCommandExtension.onKeyDown SlashCommandsList.Escape w1
        = SlashCommandExtension.Returned b w2 ->
        Editor.text (SlashCommandExtension.editor w2) = Editor.text s0
        /\ Editor.caret (SlashCommandExtension.editor w2) = Editor.caret s0).
Proof.
  intros Hclaim.
  destruct (Hclaim Scenario.emptyParagraph Scenario.caretRect _ _ _
              eq_refl eq_refl) as [Htext _].
  discriminate Htext.
Qed.

(** A session started without a caret rectangle, then updated with one. *)
Lemma update_after_start_without_rect_throws_witness :
  SlashCommandExtension.popup
    (SlashCommandExtension.initial Scenario.emptyParagraph) = None
  /\ SlashCommandExtension.clientRect Scenario.propsWithoutRect = None
  /\ SlashCommandExtension.clientRect Scenario.propsWithRect
     = Some Scenario.caretRect
  /\ exists w',
       SlashCommandExtension.fire_all
         [ SlashCommandExtension.Start Scenario.propsWithoutRect;
           SlashCommandExtension.Update Scenario.propsWithRect ]
         (SlashCommandExtension.initial Scenario.emptyParagraph)
       = SlashCommandExtension.Thrown SlashCommandExtension.TypeError w'.
Proof.
  split; [reflexivity |]. split; [reflexivity |]. split; [reflexivity |].
  destruct (update_after_start_without_rect_throws
              (SlashCommandExtension.initial Scenario.emptyParagraph)
              Scenario.propsWithoutRect Scenario.propsWithRect
              Scenario.caretRect eq_refl eq_refl eq_refl)
    as (_ & Hthrow & _).
  exact Hthrow.
Defined.

(* ===================================================================== *)
(** ** Further properties of the candidate filter *)
(* ===================================================================== *)

Section FilterProperties.
Import Js SlashCommands Filter.

Variable toLowerCase : JsString -> JsString.

Lemma filter_length_bound {A : Type} (f : A -> bool) (l : list A) :
  (List.length (List.filter f l) <= List.length l)%nat.
Proof.
  induction l as [|x l IH]; simpl; [lia |].
  destruct (f x); simpl; lia.
Qed.

(** The registry has fewer than ten entries, so [slice(0, 10)] keeps all
    the matches. *)
Lemma items_uncapped (q : JsString) :
  items toLowerCase q = List.filter (item_matches toLowerCase q) slashCommands.
Proof.
  unfold items, items_of. apply take_ge.
  etransitivity; [apply filter_length_bound |]. simpl. lia.
Qed.

(** Every command of the registry that matches the query is among the
    candidates: the cap of ten never drops a match. *)
Theorem items_offers_every_match (q : JsString) (c : SlashCommandItem) :
  c ∈ slashCommands ->
  matches_spec toLowerCase q c ->
  c ∈ items toLowerCase q.
Proof.
  intros Hin Hmatch. rewrite items_uncapped, list_elem_of_In, filter_In.
  split; [by apply list_elem_of_In | by apply item_matches_spec].
Qed.

Lemma slashCommands_titles_NoDup : NoDup (List.map title slashCommands).
Proof.
  unfold code_unit.
  apply (bool_decide_unpack (NoDup (List.map title slashCommands))).
  by vm_compute.
Qed.

Lemma map_sublist {A B : Type} (f : A -> B) (l1 l2 : list A) :
  l1 `sublist_of` l2 -> List.map f l1 `sublist_of` List.map f l2.
Proof. induction 1; simpl; by constructor. Qed.

(** The candidates of any query have pairwise distinct titles, which the
    list component uses as the keys of its entries. *)
Theorem items_titles_distinct (q : JsString) :
  NoDup (List.map title (items toLowerCase q)).
Proof.
  apply (sublist_NoDup _ (List.map title slashCommands));
    [exact slashCommands_titles_NoDup |].
  apply map_sublist. rewrite items_uncapped. apply filter_sublist_of.
Qed.

(** Typing the full title of a registry command always offers that
    command. *)
Theorem items_offers_title (c : SlashCommandItem) :
  c ∈ slashCommands -> c ∈ items toLowerCase (title c).
Proof.
  intros Hin. rewrite items_uncapped, list_elem_of_In, filter_In.
  split; [by apply list_elem_of_In |].
  apply item_matches_spec. left. unfold title_starts_with_ci. reflexivity.
Qed.

(** Candidates are registry commands. *)
Lemma items_from_registry (q : JsString) (c : SlashCommandItem) :
  c ∈ items toLowerCase q -> c ∈ slashCommands.
Proof.
  rewrite items_uncapped, !list_elem_of_In, filter_In. by intros [H _].
Qed.

End FilterProperties.

Lemma items_offers_every_match_witness :
  SlashCommands.orderedListItem ∈ SlashCommands.slashCommands
  /\ Filter.matches_spec Js.asciiToLowerCase (Js.lit "H")
       SlashCommands.orderedListItem
  /\ SlashCommands.orderedListItem
     ∈ Filter.items Js.asciiToLowerCase (Js.lit "H").
Proof.
  assert (Hin : SlashCommands.orderedListItem ∈ SlashCommands.slashCommands)
    by (do 5 apply list_elem_of_further; apply list_elem_of_here).
  assert (Hm : Filter.matches_spec Js.asciiToLowerCase (Js.lit "H")
                 SlashCommands.orderedListItem).
  { right. exists (Js.lit "create a list wit"), (Js.lit " numbering").
    reflexivity. }
  split; [exact Hin |]. split; [exact Hm |].
  exact (items_offers_every_match Js.asciiToLowerCase _ _ Hin Hm).
Defined.

Lemma items_offers_title_witness :
  SlashCommands.calloutItem ∈ SlashCommands.slashCommands
  /\ SlashCommands.calloutItem
     ∈ Filter.items Js.asciiToLowerCase
         (SlashCommands.title SlashCommands.calloutItem).
Proof.
  assert (Hin : SlashCommands.calloutItem ∈ SlashCommands.slashCommands)
    by (do 6 apply list_elem_of_further; apply list_elem_of_here).
  split; [exact Hin |].
  exact (items_offers_title Js.asciiToLowerCase _ Hin).
Defined.

(* ===================================================================== *)
(** ** Further properties of the list component *)
(* ===================================================================== *)

Section ListProperties.
Import Js SlashCommands SlashCommandsList.

Lemma state_eq (st st' : State) :
  items st = items st' -> selectedIndex st = selectedIndex st' -> st = st'.
Proof. destruct st, st'; simpl; by intros -> ->. Qed.

(** ArrowUp undoes ArrowDown and ArrowDown undoes ArrowUp, from every state
    whose highlighted index is in range. *)
Theorem arrowUp_and_arrowDown_are_inverse (st : State) :
  valid_index st ->
  next (onKeyDown (next (onKeyDown st ArrowDown)) ArrowUp) = st
  /\ next (onKeyDown (next (onKeyDown st ArrowUp)) ArrowDown) = st.
Proof.
  intros (i & Hsel & Hi).
  set (n := Z.of_nat (List.length (items st))) in *.
  pose proof (arrowDown_index st i Hsel Hi) as Hdown. fold n in Hdown.
  pose proof (arrowUp_index st i Hsel Hi) as Hup. fold n in Hup.
  split; apply state_eq; rewrite ?onKeyDown_items; try reflexivity.
  - rewrite (arrowUp_index _ _ Hdown); rewrite onKeyDown_items; fold n;
      [| apply Z.mod_pos_bound; lia].
    rewrite Hsel. f_equal.
    destruct (Z.eq_dec (i + 1) n) as [Heq | Hne].
    + rewrite Heq, Z_mod_same_full, Z.mod_small; lia.
    + rewrite (Z.mod_small (i + 1)) by lia.
      replace (i + 1 - 1 + n) with (i + 1 * n) by lia.
      rewrite Z.mod_add, Z.mod_small; lia.
  - rewrite (arrowDown_index _ _ Hup); rewrite onKeyDown_items; fold n;
      [| apply Z.mod_pos_bound; lia].
    rewrite Hsel. f_equal.
    destruct (Z.eq_dec i 0) as [-> | Hne].
    + rewrite (Z.mod_small (0 - 1 + n)) by lia.
      replace (0 - 1 + n + 1) with n by lia. apply Z_mod_same_full.
    + replace (i - 1 + n) with (i - 1 + 1 * n) by lia.
      rewrite Z.mod_add, (Z.mod_small (i - 1)) by lia.
      rewrite Z.mod_small; lia.
Qed.

(** After [k] presses of ArrowDown on a freshly rendered non-empty list,
    Enter commits the entry at position [k mod length]. *)
Theorem enter_after_arrowDowns (its : list SlashCommandItem) (k : nat) :
  its <> [] ->
  invoked (onKeyDown (pressDown k (mount its)) Enter)
  = its !! (k mod List.length its)%nat.
Proof.
  intros Hne.
  assert (Hlen : (0 < List.length its)%nat) by (destruct its; [done | simpl; lia]).
  rewrite (pressDown_index k (mount its) 0 eq_refl) by (simpl; lia).
  cbn [onKeyDown invoked items selectedIndex mount effect_items].
  rewrite selectItem_index. unfold Js.index.
  rewrite Z.add_0_l, <- Nat2Z.inj_mod.
  destruct (Z.ltb_spec (Z.of_nat (k mod List.length its)) 0) as [Hneg | _];
    [lia |].
  by rewrite Nat2Z.id.
Qed.

(** In every state whose highlighted index is in range, exactly one
    rendered entry is highlighted, the one at that index, and Enter commits
    the item that entry shows. *)
Theorem highlighted_entry_is_the_one_committed (st : State) :
  valid_index st ->
  exists (n : nat) (item : SlashCommandItem) (entries : list Entry),
    selectedIndex st = JNum (Z.of_nat n)
    /\ render st = Some entries
    /\ entries !! n = Some {| entry_title := title item;
                              entry_description := description item;
                              entry_selected := true |}
    /\ (forall m e, entries !! m = Some e -> entry_selected e = true -> m = n)
    /\ invoked (onKeyDown st Enter) = Some item.
Proof.
  intros (i & Hsel & Hi).
  destruct (lookup_lt_is_Some_2 (items st) (Z.to_nat i)) as [item Hitem];
    [lia |].
  exists (Z.to_nat i), item.
  exists (imap (fun index x =>
                  {| entry_title := title x;
                     entry_description := description x;
                     entry_selected := is_selected index (selectedIndex st) |})
               (items st)).
  split; [rewrite Hsel; f_equal; lia |]. split.
  - unfold render.
    destruct (Nat.eqb_spec (List.length (items st)) 0) as [H0 | _]; [lia | done].
  - split; [| split].
    + rewrite list_lookup_imap, Hitem. simpl. rewrite Hsel. simpl.
      do 2 f_equal. apply Z.eqb_eq. lia.
    + intros m e. rewrite list_lookup_imap.
      destruct (items st !! m) as [x|]; simpl; [| done].
      intros [= <-]. simpl. rewrite Hsel. simpl.
      intros Heq%Z.eqb_eq. lia.
    + simpl. rewrite selectItem_index, Hsel. simpl.
      destruct (Z.ltb_spec i 0) as [Hneg | _]; [lia | exact Hitem].
Qed.

(** The rendered list has one entry per candidate, in order, and a click
    on an entry commits the very item whose title and description the
    entry shows. *)
Theorem click_commits_the_entry_shown (st : State) (entries : list Entry) :
  render st = Some entries ->
  List.length entries = List.length (items st)
  /\ forall n e, entries !! n = Some e ->
       exists item,
         onClick st n = Some item
         /\ items st !! n = Some item
         /\ entry_title e = title item
         /\ entry_description e = description item.
Proof.
  unfold render. destruct (Nat.eqb _ 0); [done |]. intros [= <-].
  split; [apply length_imap |].
  intros n e. rewrite list_lookup_imap.
  destruct (items st !! n) as [item|] eqn:Hitem; simpl; [| done].
  intros [= <-]. exists item. split; [| done].
  unfold onClick. rewrite selectItem_index. simpl.
  destruct (Z.ltb_spec (Z.of_nat n) 0) as [Hneg | _]; [lia |].
  by rewrite Nat2Z.id.
Qed.

Lemma run_keys_items (st : State) (keys : list Key) :
  items (run st (List.map KeyDown keys)) = items st.
Proof.
  revert st. induction keys as [|key keys IH]; intros st; simpl; [done |].
  by rewrite IH, onKeyDown_items.
Qed.

(** While the list is empty no sequence of keys gets a command invoked:
    after any keys (arrow keys included, which leave NaN in the index) the
    list is still empty, nothing is rendered, and neither Enter nor a click
    selects an item. *)
Theorem empty_list_never_invokes (st : State) (keys : list Key) :
  items st = [] ->
  let st' := run st (List.map KeyDown keys) in
  items st' = []
  /\ render st' = None
  /\ invoked (onKeyDown st' Enter) = None
  /\ forall n, onClick st' n = None.
Proof.
  intros Hnil st'.
  assert (Hnil' : items st' = []) by (unfold st'; by rewrite run_keys_items).
  split; [done |]. split; [unfold render; by rewrite Hnil' |].
  split; [simpl; by rewrite Hnil', selectItem_nil |].
  intros n. unfold onClick. by rewrite Hnil', selectItem_nil.
Qed.

End ListProperties.

Lemma arrowUp_and_arrowDown_are_inverse_witness :
  SlashCommandsList.valid_index
    (SlashCommandsList.mount SlashCommands.slashCommands)
  /\ SlashCommandsList.next
       (SlashCommandsList.onKeyDown
          (SlashCommandsList.next
             (SlashCommandsList.onKeyDown
                (SlashCommandsList.mount SlashCommands.slashCommands)
                SlashCommandsList.ArrowUp))
          SlashCommandsList.ArrowDown)
     = SlashCommandsList.mount SlashCommands.slashCommands.
Proof.
  assert (Hval : SlashCommandsList.valid_index
                   (SlashCommandsList.mount SlashCommands.slashCommands)).
  { exists 0. split; [reflexivity | simpl; lia]. }
  split; [exact Hval |].
  exact (proj2 (arrowUp_and_arrowDown_are_inverse _ Hval)).
Defined.

Lemma enter_after_arrowDowns_witness :
  SlashCommands.slashCommands <> []
  /\ SlashCommandsList.invoked
       (SlashCommandsList.onKeyDown
          (SlashCommandsList.pressDown 9
             (SlashCommandsList.mount SlashCommands.slashCommands))
          SlashCommandsList.Enter)
     = Some SlashCommands.heading2Item.
Proof.
  assert (Hne : SlashCommands.slashCommands <> []) by discriminate.
  split; [exact Hne |].
  exact (enter_after_arrowDowns SlashCommands.slashCommands 9 Hne).
Defined.

Lemma highlighted_entry_is_the_one_committed_witness :
  SlashCommandsList.valid_index
    (SlashCommandsList.run
       (SlashCommandsList.mount SlashCommands.slashCommands)
       [SlashCommandsList.KeyDown SlashCommandsList.ArrowUp])
  /\ exists (n : nat) (item : SlashCommands.SlashCommandItem),
       SlashCommandsList.selectedIndex
         (SlashCommandsList.run
            (SlashCommandsList.mount SlashCommands.slashCommands)
            [SlashCommandsList.KeyDown SlashCommandsList.ArrowUp])
       = Js.JNum (Z.of_nat n)
       /\ SlashCommandsList.invoked
            (SlashCommandsList.onKeyDown
               (SlashCommandsList.run
                  (SlashCommandsList.mount SlashCommands.slashCommands)
                  [SlashCommandsList.KeyDown SlashCommandsList.ArrowUp])
               SlashCommandsList.Enter)
          = Some item.
Proof.
  assert (Hval : SlashCommandsList.valid_index
                   (SlashCommandsList.run
                      (SlashCommandsList.mount SlashCommands.slashCommands)
                      [SlashCommandsList.KeyDown SlashCommandsList.ArrowUp])).
  { exists 6. split; [reflexivity | simpl; lia]. }
  split; [exact Hval |].
  destruct (highlighted_entry_is_the_one_committed _ Hval)
    as (n & item & entries & Hsel & _ & _ & _ & Hinv).
  exists n, item. split; [exact Hsel | exact Hinv].
Defined.

Lemma click_commits_the_entry_shown_witness :
  exists entries,
    SlashCommandsList.render
      (SlashCommandsList.mount (Filter.items Js.asciiToLowerCase (Js.lit "h")))
    = Some entries
    /\ List.length entries = 5%nat.
Proof.
  eexists. split; [reflexivity |].
  exact (proj1 (click_commits_the_entry_shown
                  (SlashCommandsList.mount
                     (Filter.items Js.asciiToLowerCase (Js.lit "h")))
                  _ eq_refl)).
Defined.

Lemma empty_list_never_invokes_witness :
  SlashCommandsList.items (SlashCommandsList.mount []) = []
  /\ SlashCommandsList.invoked
       (SlashCommandsList.onKeyDown
          (SlashCommandsList.run (SlashCommandsList.mount [])
             (List.map SlashCommandsList.KeyDown
                [SlashCommandsList.ArrowDown; SlashCommandsList.Enter;
                 SlashCommandsList.ArrowUp]))
          SlashCommandsList.Enter) = None.
Proof.
  split; [reflexivity |].
  destruct (empty_list_never_invokes (SlashCommandsList.mount [])
              [SlashCommandsList.ArrowDown; SlashCommandsList.Enter;
               SlashCommandsList.ArrowUp] eq_refl)
    as (_ & _ & Hinv & _).
  exact Hinv.
Defined.

(* ===================================================================== *)
(** ** Further properties of the popup controller *)
(* ===================================================================== *)

Section ControllerProperties.
Import Js Editor SlashCommands SlashCommandExtension Routing.
Import SlashCommandsList(Key, ArrowUp, ArrowDown, Enter, Escape, OtherKey).

(** A key whose name is none of Escape, ArrowUp, ArrowDown and Enter is not
    consumed: the controller returns [false], so the key goes on to the text
    surface, and nothing changes in the session. *)
Theorem other_keys_pass_through (name : string) (w : World) (c : Component) :
  name <> "Escape"%string ->
  name <> "ArrowUp"%string ->
  name <> "ArrowDown"%string ->
  name <> "Enter"%string ->
  component w = Some c ->
  destroyed c = false ->
  onKeyDown (keyOf name) w = Returned false w.
Proof.
  intros H1 H2 H3 H4 Hc Hlive. unfold keyOf.
  apply String.eqb_neq in H1, H2, H3, H4. rewrite H1, H2, H3, H4.
  destruct w as [ed comp pop tr], c as [p st d]; simpl in *; subst.
  reflexivity.
Qed.

Lemma invoked_in_items (st : SlashCommandsList.State) (key : Key)
    (item : SlashCommandItem) :
  SlashCommandsList.invoked (SlashCommandsList.onKeyDown st key) = Some item ->
  item ∈ SlashCommandsList.items st.
Proof.
  destruct key; simpl; try discriminate.
  intros (n & _ & Hn)%selectItem_Some. by apply list_elem_of_lookup_2 in Hn.
Qed.

Lemma feed_frame (i : Input) (w : World) :
  commits i = false ->
  editor (world_of (feed i w)) = editor w
  /\ trace (world_of (feed i w)) = trace w.
Proof.
  destruct i as [[p | p | key |] | n |]; simpl; try discriminate; intros Hc.
  - unfold onStart. by destruct (clientRect p).
  - unfold onUpdate. destruct (component w); [| done]. cbn [popup].
    destruct (clientRect p); [| done]. by destruct (popup w).
  - destruct key; try discriminate; unfold onKeyDown;
      try (destruct (popup w); done);
      (destruct (component w) as [c|]; [| done]);
      by destruct (destroyed c).
  - done.
  - done.
Qed.

(** Only a commit (Enter or a click) can touch the text surface: after any
    sequence of hooks without Enter and without clicks, whether it ran to
    its end or stopped at an exception, the surface is what it was and no
    command has been invoked. *)
Theorem only_commits_change_the_surface (ins : list Input) (w : World) :
  Forall (fun i => commits i = false) ins ->
  editor (world_of (feed_all ins w)) = editor w
  /\ trace (world_of (feed_all ins w)) = trace w.
Proof.
  intros Hall. revert w.
  induction Hall as [|i ins Hi _ IH]; intros w; simpl; [done |].
  destruct (feed_frame i w Hi) as [Hed Htr].
  destruct (feed i w) as [[] w' | e w']; simpl in *.
  - destruct (IH w') as [Hed' Htr']. split; congruence.
  - done.
Qed.

Lemma feed_within (R : list SlashCommandItem) (i : Input) (w : World) :
  within R w -> candidates_from R i -> within R (world_of (feed i w)).
Proof.
  intros Hw Hfrom. pose proof Hw as [Hcomp Htrace].
  destruct i as [[p | p | key |] | n |]; simpl in *.
  - unfold onStart.
    destruct (clientRect p) as [rect|]; (split; simpl; [| exact Htrace]);
      intros c item [= <-]; apply Hfrom.
  - unfold onUpdate. destruct (component w) as [c0|] eqn:Hc0; [| exact Hw].
    cbn [popup].
    destruct (clientRect p) as [rect|]; [destruct (popup w) as [t|] |];
      (split; simpl; [| exact Htrace]); intros c item [= <-]; apply Hfrom.
  - assert (Hother :
      forall k, k <> Escape ->
        within R (world_of
          match onKeyDown k w with
          | Returned _ w' => Returned tt w'
          | Thrown e w' => Thrown e w'
          end)).
    { intros k Hk. unfold onKeyDown.
      assert (Hgoal :
        within R (world_of
          match
            match component w with
            | None => Thrown TypeError w
            | Some c =>
                if destroyed c then Returned false w
                else
                  let r := SlashCommandsList.onKeyDown (ref c) k in
                  let c' := {| props := props c;
                               ref := SlashCommandsList.next r;
                               destroyed := destroyed c |} in
                  match SlashCommandsList.invoked r with
                  | None =>
                      Returned (SlashCommandsList.handled r)
                        {| editor := editor w; component := Some c';
                           popup := popup w; trace := trace w |}
                  | Some item =>
                      Returned (SlashCommandsList.handled r)
                        {| editor := command (editor w) (range (props c)) item;
                           component := Some c';
                           popup := popup w;
                           trace := trace w ++ [item] |}
                  end
            end
          with
          | Returned _ w' => Returned tt w'
          | Thrown e w' => Thrown e w'
          end)).
      { destruct (component w) as [c0|] eqn:Hc0; [| exact Hw].
        destruct (destroyed c0); [exact Hw |]. cbn zeta.
        destruct (SlashCommandsList.invoked _) as [item0|] eqn:Hinv; simpl.
        - split; simpl.
          + intros c item [= <-]. simpl. rewrite onKeyDown_items.
            by apply (Hcomp c0).
          + intros item [Hold | ->%list_elem_of_singleton]%elem_of_app;
              [by apply Htrace |].
            apply (Hcomp c0 _ eq_refl). by apply invoked_in_items in Hinv.
        - split; simpl; [| exact Htrace].
          intros c item [= <-]. simpl. rewrite onKeyDown_items.
          by apply (Hcomp c0). }
      by destruct k. }
    destruct key; try (by apply Hother).
    unfold onKeyDown. destruct (popup w) as [t|]; exact Hw.
  - split; simpl; [| exact Htrace].
    intros c item. destruct (component w) as [c0|] eqn:Hc0; [| done].
    intros [= <-]. simpl. by apply (Hcomp c0).
  - unfold onClick. destruct (component w) as [c0|] eqn:Hc0; [| exact Hw].
    destruct (SlashCommandsList.onClick (ref c0) n) as [item0|] eqn:Hclick;
      [| exact Hw].
    split; simpl.
    + intros c item Hc. by apply (Hcomp c).
    + intros item [Hold | ->%list_elem_of_singleton]%elem_of_app;
        [by apply Htrace |].
      apply (Hcomp c0 _ eq_refl).
      apply selectItem_Some in Hclick as (m & _ & Hm).
      by apply list_elem_of_lookup_2 in Hm.
  - split; simpl; [| exact Htrace].
    intros c item. destruct (component w) as [c0|] eqn:Hc0; [| done].
    destruct (destroyed c0); intros [= <-]; by apply (Hcomp c0).
Qed.

(** Only commands that were offered are ever invoked: if every candidate
    list handed to the controller is taken from [R], then after any sequence
    of hooks and clicks every command in the trace is a command of [R]. *)
Theorem only_offered_commands_are_invoked
    (R : list SlashCommandItem) (ins : list Input) (w : World) :
  within R w ->
  Forall (candidates_from R) ins ->
  within R (world_of (feed_all ins w)).
Proof.
  intros Hw Hall. revert w Hw.
  induction Hall as [|i ins Hi _ IH]; intros w Hw; simpl; [done |].
  pose proof (feed_within R i w Hw Hi) as Hstep.
  destruct (feed i w) as [[] w' | e w']; simpl in *; [by apply IH | done].
Qed.

End ControllerProperties.

(* ===================================================================== *)
(** ** Exit, re-entry, and what a commit does to the surface *)
(* ===================================================================== *)

Section CommitProperties.
Import Js Editor SlashCommands SlashCommandExtension Routing.
Import SlashCommandsList(Key, ArrowUp, ArrowDown, Enter, Escape, OtherKey).


Lemma exec_focused (item : SlashCommandItem) (s : Surface) (r : option Range) :
  item ∈ slashCommands -> focused (exec item s r) = true.
Proof.
  unfold slashCommands. rewrite !elem_of_cons, elem_of_nil.
  intros [-> | [-> | [-> | [-> | [-> | [-> | [-> | []]]]]]]];
    try reflexivity.
  destruct r; cbn; by destruct (BlockType_eqb (block s) Callout).
Qed.

(** Committing any command of the registry with Enter leaves the text
    surface focused: every command starts its chain with [focus()] and no
    later call takes the focus away. *)
Theorem commit_focuses_the_surface
    (w : World) (c : Component) (item : SlashCommandItem) :
  component w = Some c ->
  destroyed c = false ->
  SlashCommandsList.selectItem (SlashCommandsList.items (ref c))
    (SlashCommandsList.selectedIndex (ref c)) = Some item ->
  item ∈ slashCommands ->
  exists w',
    onKeyDown Enter w = Returned true w'
    /\ focused (editor w') = true
    /\ trace w' = trace w ++ [item].
Proof.
  intros Hc Hlive Hsel Hin.
  rewrite (onKeyDown_Enter w c Hc Hlive), Hsel.
  eexists. split; [reflexivity |]. simpl. split; [| done].
  by apply exec_focused.
Qed.

(** Committing Callout removes exactly the recorded range from the text
    and focuses the surface, but creates no callout: a block that is not a
    callout keeps its kind. *)
Theorem callout_commit_removes_the_range (w : World) (c : Component) :
  component w = Some c ->
  destroyed c = false ->
  SlashCommandsList.selectItem (SlashCommandsList.items (ref c))
    (SlashCommandsList.selectedIndex (ref c)) = Some calloutItem ->
  exists w',
    onKeyDown Enter w = Returned true w'
    /\ text (editor w')
       = take (from (range (props c))) (text (editor w))
         ++ drop (to (range (props c))) (text (editor w))
    /\ (block (editor w) <> Callout -> block (editor w') = block (editor w))
    /\ focused (editor w') = true
    /\ trace w' = trace w ++ [calloutItem].
Proof.
  intros Hc Hlive Hsel.
  rewrite (onKeyDown_Enter w c Hc Hlive), Hsel.
  eexists. split; [reflexivity |]. cbn.
  destruct (block (editor w)) eqn:Hblock; cbn; repeat split; done.
Qed.

(** Escape hides the popup but does not end key handling: an Enter that
    reaches the controller afterwards still commits the highlighted item,
    with the popup still hidden. *)
Theorem enter_after_escape_still_commits
    (w : World) (c : Component) (t : Tippy) (item : SlashCommandItem) :
  component w = Some c ->
  destroyed c = false ->
  popup w = Some t ->
  SlashCommandsList.selectItem (SlashCommandsList.items (ref c))
    (SlashCommandsList.selectedIndex (ref c)) = Some item ->
  exists w',
    fire_all [KeyDown Escape; KeyDown Enter] w = Returned tt w'
    /\ trace w' = trace w ++ [item]
    /\ editor w' = command (editor w) (range (props c)) item
    /\ exists t', popup w' = Some t' /\ status t' <> Shown.
Proof.
  intros Hc Hlive Ht Hsel. cbn [fire_all fire].
  unfold onKeyDown at 1. rewrite Ht.
  erewrite (onKeyDown_Enter _ c); [| exact Hc | exact Hlive].
  rewrite Hsel. eexists. split; [reflexivity |]. simpl.
  split; [done |]. split; [done |].
  eexists. split; [reflexivity | apply tippy_hide_status].
Qed.

End CommitProperties.

(* ===================================================================== *)
(** ** The callout attributes *)
(* ===================================================================== *)

Section CalloutAttributes.
Import Js CalloutExtension.

(** What an attribute's [renderHTML] writes, its [parseHTML] reads back:
    on an element that carries the rendered [data-icon] and
    [data-background-color], parsing gives the icon and the background the
    node's own [renderHTML] uses, and these are the node's attributes
    whenever they are non-empty strings.  A missing or empty attribute is
    not written and parses to the value of the extension options. *)
Theorem callout_attributes_round_trip
    (options attrs : CalloutNodeAttributes) (element : gmap string JsString) :
  element !! "data-icon"%string = icon_renderHTML attrs !! "data-icon"%string ->
  element !! "data-background-color"%string
  = backgroundColor_renderHTML attrs !! "data-background-color"%string ->
  icon_parseHTML options element = currentIcon options attrs
  /\ backgroundColor_parseHTML options element = currentBgColor options attrs
  /\ (truthy (icon attrs) = true ->
      icon_parseHTML options element = icon attrs)
  /\ (truthy (backgroundColor attrs) = true ->
      backgroundColor_parseHTML options element = backgroundColor attrs)
  /\ (truthy (icon attrs) = false ->
      icon_renderHTML attrs = ∅
      /\ icon_parseHTML options element = icon options)
  /\ (truthy (backgroundColor attrs) = false ->
      backgroundColor_renderHTML attrs = ∅
      /\ backgroundColor_parseHTML options element = backgroundColor options).
Proof.
  unfold icon_parseHTML, backgroundColor_parseHTML, getAttribute,
    icon_renderHTML, backgroundColor_renderHTML, currentIcon, currentBgColor.
  intros Hicon Hbg. rewrite Hicon, Hbg. clear Hicon Hbg.
  destruct attrs as [[[|c v]|] [[|d u]|]]; simpl;
    rewrite ?lookup_singleton_eq, ?lookup_empty; simpl;
    repeat split; try done.
Qed.

End CalloutAttributes.

(* ===================================================================== *)
(** ** The further properties on concrete sessions *)
(* ===================================================================== *)

Lemma other_keys_pass_through_witness :
  exists c,
    SlashCommandExtension.component
      (SlashCommandExtension.world_of Scenario.afterSlashH) = Some c
    /\ SlashCommandExtension.destroyed c = false
    /\ SlashCommandExtension.onKeyDown (Routing.keyOf "Tab")
         (SlashCommandExtension.world_of Scenario.afterSlashH)
       = SlashCommandExtension.Returned false
           (SlashCommandExtension.world_of Scenario.afterSlashH).
Proof.
  eexists. split; [reflexivity |]. split; [reflexivity |].
  exact (other_keys_pass_through "Tab"
           (SlashCommandExtension.world_of Scenario.afterSlashH) _
           ltac:(discriminate) ltac:(discriminate) ltac:(discriminate)
           ltac:(discriminate) eq_refl eq_refl).
Defined.

Lemma only_commits_change_the_surface_witness :
  Forall (fun i => Routing.commits i = false)
    [ Routing.Hooked (SlashCommandExtension.Update (Scenario.propsNoMatch "xyz"));
      Routing.Hooked (SlashCommandExtension.KeyDown SlashCommandsList.ArrowDown);
      Routing.Hooked (SlashCommandExtension.KeyDown SlashCommandsList.Escape);
      Routing.Hooked SlashCommandExtension.Exit ]
  /\ SlashCommandExtension.editor
       (SlashCommandExtension.world_of
          (Routing.feed_all
             [ Routing.Hooked
                 (SlashCommandExtension.Update (Scenario.propsNoMatch "xyz"));
               Routing.Hooked
                 (SlashCommandExtension.KeyDown SlashCommandsList.ArrowDown);
               Routing.Hooked
                 (SlashCommandExtension.KeyDown SlashCommandsList.Escape);
               Routing.Hooked SlashCommandExtension.Exit ]
             (SlashCommandExtension.world_of Scenario.afterSlash)))
     = SlashCommandExtension.editor
         (SlashCommandExtension.world_of Scenario.afterSlash).
Proof.
  assert (Hall : Forall (fun i => Routing.commits i = false)
    [ Routing.Hooked (SlashCommandExtension.Update (Scenario.propsNoMatch "xyz"));
      Routing.Hooked (SlashCommandExtension.KeyDown SlashCommandsList.ArrowDown);
      Routing.Hooked (SlashCommandExtension.KeyDown SlashCommandsList.Escape);
      Routing.Hooked SlashCommandExtension.Exit ]).
  { repeat constructor. }
  split; [exact Hall |].
  exact (proj1 (only_commits_change_the_surface _
                  (SlashCommandExtension.world_of Scenario.afterSlash) Hall)).
Defined.

Lemma only_offered_commands_are_invoked_witness :
  Routing.within SlashCommands.slashCommands
    (SlashCommandExtension.initial Scenario.emptyParagraph)
  /\ Forall (Routing.candidates_from SlashCommands.slashCommands)
       [ Routing.Hooked (SlashCommandExtension.Start Scenario.propsWithRect);
         Routing.Hooked
           (SlashCommandExtension.KeyDown SlashCommandsList.ArrowDown);
         Routing.Hooked (SlashCommandExtension.KeyDown SlashCommandsList.Enter);
         Routing.Clicked 0 ]
  /\ Routing.within SlashCommands.slashCommands
       (SlashCommandExtension.world_of
          (Routing.feed_all
             [ Routing.Hooked (SlashCommandExtension.Start Scenario.propsWithRect);
               Routing.Hooked
                 (SlashCommandExtension.KeyDown SlashCommandsList.ArrowDown);
               Routing.Hooked
                 (SlashCommandExtension.KeyDown SlashCommandsList.Enter);
               Routing.Clicked 0 ]
             (SlashCommandExtension.initial Scenario.emptyParagraph))).
Proof.
  assert (Hw : Routing.within SlashCommands.slashCommands
                 (SlashCommandExtension.initial Scenario.emptyParagraph)).
  { split; simpl; [discriminate |]. intros item Hin. by apply elem_of_nil in Hin. }
  assert (Hall : Forall (Routing.candidates_from SlashCommands.slashCommands)
       [ Routing.Hooked (SlashCommandExtension.Start Scenario.propsWithRect);
         Routing.Hooked
           (SlashCommandExtension.KeyDown SlashCommandsList.ArrowDown);
         Routing.Hooked (SlashCommandExtension.KeyDown SlashCommandsList.Enter);
         Routing.Clicked 0 ]).
  { apply Forall_cons. split.
    - intros item. apply items_from_registry.
    - repeat (apply Forall_cons; split; [exact I |]). apply Forall_nil_2. }
  split; [exact Hw |]. split; [exact Hall |].
  exact (only_offered_commands_are_invoked _ _ _ Hw Hall).
Defined.


Lemma commit_focuses_the_surface_witness :
  exists c,
    SlashCommandExtension.component
      (SlashCommandExtension.world_of Scenario.afterSlashH) = Some c
    /\ SlashCommandExtension.destroyed c = false
    /\ SlashCommandsList.selectItem
         (SlashCommandsList.items (SlashCommandExtension.ref c))
         (SlashCommandsList.selectedIndex (SlashCommandExtension.ref c))
       = Some SlashCommands.heading1Item
    /\ SlashCommands.heading1Item ∈ SlashCommands.slashCommands
    /\ exists w',
         SlashCommandExtension.onKeyDown SlashCommandsList.Enter
           (SlashCommandExtension.world_of Scenario.afterSlashH)
         = SlashCommandExtension.Returned true w'
         /\ Editor.focused (SlashCommandExtension.editor w') = true.
Proof.
  assert (Hin : SlashCommands.heading1Item ∈ SlashCommands.slashCommands)
    by (apply list_elem_of_further, list_elem_of_here).
  eexists. split; [reflexivity |]. split; [reflexivity |].
  split; [reflexivity |]. split; [exact Hin |].
  destruct (commit_focuses_the_surface
              (SlashCommandExtension.world_of Scenario.afterSlashH) _
              SlashCommands.heading1Item eq_refl eq_refl eq_refl Hin)
    as (w' & Hrun & Hfocus & _).
  exists w'. split; [exact Hrun | exact Hfocus].
Defined.

Lemma callout_commit_removes_the_range_witness :
  exists c,
    SlashCommandExtension.component
      (SlashCommandExtension.world_of
         (SlashCommandExtension.andThen Scenario.afterSlash
            (SlashCommandExtension.typeQuery Js.asciiToLowerCase
               (Js.lit "callout") (Some Scenario.caretRect)))) = Some c
    /\ SlashCommandExtension.destroyed c = false
    /\ SlashCommandsList.selectItem
         (SlashCommandsList.items (SlashCommandExtension.ref c))
         (SlashCommandsList.selectedIndex (SlashCommandExtension.ref c))
       = Some SlashCommands.calloutItem
    /\ exists w',
         SlashCommandExtension.onKeyDown SlashCommandsList.Enter
           (SlashCommandExtension.world_of
              (SlashCommandExtension.andThen Scenario.afterSlash
                 (SlashCommandExtension.typeQuery Js.asciiToLowerCase
                    (Js.lit "callout") (Some Scenario.caretRect))))
         = SlashCommandExtension.Returned true w'
         /\ Editor.text (SlashCommandExtension.editor w') = []
         /\ Editor.block (SlashCommandExtension.editor w') = Editor.Paragraph.
Proof.
  eexists. split; [reflexivity |]. split; [reflexivity |].
  split; [reflexivity |].
  destruct (callout_commit_removes_the_range
              (SlashCommandExtension.world_of
                 (SlashCommandExtension.andThen Scenario.afterSlash
                    (SlashCommandExtension.typeQuery Js.asciiToLowerCase
                       (Js.lit "callout") (Some Scenario.caretRect))))
              _ eq_refl eq_refl eq_refl)
    as (w' & Hrun & Htext & Hblock & _).
  exists w'. split; [exact Hrun |]. split; [exact Htext |].
  apply Hblock. discriminate.
Defined.

Lemma enter_after_escape_still_commits_witness :
  exists c t,
    SlashCommandExtension.component
      (SlashCommandExtension.world_of Scenario.afterSlashH) = Some c
    /\ SlashCommandExtension.destroyed c = false
    /\ SlashCommandExtension.popup
         (SlashCommandExtension.world_of Scenario.afterSlashH) = Some t
    /\ SlashCommandsList.selectItem
         (SlashCommandsList.items (SlashCommandExtension.ref c))
         (SlashCommandsList.selectedIndex (SlashCommandExtension.ref c))
       = Some SlashCommands.heading1Item
    /\ exists w',
         SlashCommandExtension.fire_all
           [ SlashCommandExtension.KeyDown SlashCommandsList.Escape;
             SlashCommandExtension.KeyDown SlashCommandsList.Enter ]
           (SlashCommandExtension.world_of Scenario.afterSlashH)
         = SlashCommandExtension.Returned tt w'
         /\ SlashCommandExtension.trace w' = [SlashCommands.heading1Item].
Proof.
  do 2 eexists. split; [reflexivity |]. split; [reflexivity |].
  split; [reflexivity |]. split; [reflexivity |].
  destruct (enter_after_escape_still_commits
              (SlashCommandExtension.world_of Scenario.afterSlashH) _ _
              SlashCommands.heading1Item eq_refl eq_refl eq_refl eq_refl)
    as (w' & Hrun & Htrace & _).
  exists w'. split; [exact Hrun | exact Htrace].
Defined.

Lemma callout_attributes_round_trip_witness :
  ({[ "data-icon"%string := Js.lit "!" ]} : gmap string Js.JsString)
    !! "data-icon"%string
  = CalloutExtension.icon_renderHTML
      {| CalloutExtension.icon := Some (Js.lit "!");
         CalloutExtension.backgroundColor := Some [] |}
    !! "data-icon"%string
  /\ ({[ "data-icon"%string := Js.lit "!" ]} : gmap string Js.JsString)
       !! "data-background-color"%string
     = CalloutExtension.backgroundColor_renderHTML
         {| CalloutExtension.icon := Some (Js.lit "!");
            CalloutExtension.backgroundColor := Some [] |}
       !! "data-background-color"%string
  /\ CalloutExtension.icon_parseHTML
       {| CalloutExtension.icon := None;
          CalloutExtension.backgroundColor := None |}
       {[ "data-icon"%string := Js.lit "!" ]}
     = Some (Js.lit "!")
  /\ CalloutExtension.backgroundColor_parseHTML
       {| CalloutExtension.icon := None;
          CalloutExtension.backgroundColor := None |}
       {[ "data-icon"%string := Js.lit "!" ]}
     = None.
Proof.
  assert (H1 :
    ({[ "data-icon"%string := Js.lit "!" ]} : gmap string Js.JsString)
      !! "data-icon"%string
    = CalloutExtension.icon_renderHTML
        {| CalloutExtension.icon := Some (Js.lit "!");
           CalloutExtension.backgroundColor := Some [] |}
      !! "data-icon"%string) by reflexivity.
  assert (H2 :
    ({[ "data-icon"%string := Js.lit "!" ]} : gmap string Js.JsString)
      !! "data-background-color"%string
    = CalloutExtension.backgroundColor_renderHTML
        {| CalloutExtension.icon := Some (Js.lit "!");
           CalloutExtension.backgroundColor := Some [] |}
      !! "data-background-color"%string) by reflexivity.
  split; [exact H1 |]. split; [exact H2 |].
  destruct (callout_attributes_round_trip
              {| CalloutExtension.icon := None;
                 CalloutExtension.backgroundColor := None |}
              _ _ H1 H2) as (_ & _ & Hicon & _ & _ & Hbg).
  split; [exact (Hicon eq_refl) | exact (proj2 (Hbg eq_refl))].
Defined.
